(** * Jiseti backend: record lifecycle, voting and list views

    A shallow embedding of the record part of the Flask application
    ([routes.py], [models.py], [utils/validators.py]) together with the
    properties of its specification.

    Conventions of the embedding.
    - A request body ([request.get_json()]) is a Python dict of JSON
      values: [gmap string json]. Query arguments ([request.args]) are a
      dict of strings.
    - The database is a record of tables; rows of a table with a primary
      key that the code looks up or deletes by key are a [gmap Z row].
    - A handler is a function from the database (and the request) to the
      database after the request and the HTTP response. [db.session.commit]
      is the point where the new database is returned; [db.session.rollback]
      returns the database the handler started from.
    - Python exceptions are explicit: a block of code is an [outcome], and
      [try_except] is the handler's [try: ... except Exception: ...].
    - Strings are byte strings; case folding and white space are ASCII.
    - The storage engine is the default of [app.py] (SQLite): NOT NULL
      columns are enforced, foreign keys are not. Whether the engine can
      store the JSON values of a row in its typed columns is its own
      verdict, a parameter of the handlers. *)

From Stdlib Require Import ZArith QArith Ascii String List Lia.
From stdpp Require Import base option list gmap strings fin_maps pretty sorting.

Open Scope Z_scope.

(** ** Python values *)

(** A Python float as [json.loads] can produce it. *)
Inductive pyfloat :=
| FFinite (q : Q)
| FInf (negative : bool)
| FNaN.

(** The values found in a decoded JSON document. *)
#[local] Unset Elimination Schemes.
Inductive json :=
| JNull
| JBool (b : bool)
| JInt (n : Z)
| JFloat (f : pyfloat)
| JStr (s : string)
| JArr (items : list json)
| JObj (fields : list (string * json)).
#[local] Set Elimination Schemes.

Definition float_is_zero (f : pyfloat) : bool :=
  match f with
  | FFinite q => Qeq_bool q (0 # 1)
  | _ => false
  end.

(** Python truth value, as used by [if x], [not x], [x or y]. *)
Definition truthy (v : json) : bool :=
  match v with
  | JNull => false
  | JBool b => b
  | JInt n => negb (n =? 0)
  | JFloat f => negb (float_is_zero f)
  | JStr s => negb (String.eqb s "")
  | JArr l => match l with [] => false | _ => true end
  | JObj l => match l with [] => false | _ => true end
  end.

(** [a or b] *)
Definition py_or (a b : json) : json := if truthy a then a else b.

(** [x is not None] *)
Definition is_not_none (v : json) : bool :=
  match v with JNull => false | _ => true end.

(** [d.get(k)]: a missing key reads as [None]. *)
Definition dict_get (d : gmap string json) (k : string) : json :=
  default JNull (d !! k).

(** [d.get(k, dflt)] *)
Definition dict_get_default (d : gmap string json) (k : string) (dflt : json) : json :=
  default dflt (d !! k).

(** [k in d] *)
Definition dict_has (d : gmap string json) (k : string) : bool :=
  bool_decide (is_Some (d !! k)).

(** [v in l] for a list [l] of string literals. *)
Definition in_strings (v : json) (l : list string) : bool :=
  match v with
  | JStr s => bool_decide (s ∈ l)
  | _ => false
  end.

(** Truth value of an integer column that may be NULL. *)
Definition truthy_id (o : option Z) : bool :=
  match o with
  | Some n => negb (n =? 0)
  | None => false
  end.

(** ** Strings *)

Definition is_space (c : ascii) : bool :=
  let n := nat_of_ascii c in
  ((9 <=? n) && (n <=? 13) || (28 <=? n) && (n <=? 32))%nat.

Definition is_digit (c : ascii) : bool :=
  let n := nat_of_ascii c in ((48 <=? n) && (n <=? 57))%nat.

Definition digit_value (c : ascii) : Z := Z.of_nat (nat_of_ascii c) - 48.

Fixpoint lstrip (l : list ascii) : list ascii :=
  match l with
  | c :: l' => if is_space c then lstrip l' else l
  | [] => []
  end.

(** [s.strip()] *)
Definition strip_chars (l : list ascii) : list ascii :=
  rev (lstrip (rev (lstrip l))).

Definition strip (s : string) : string :=
  string_of_list_ascii (strip_chars (list_ascii_of_string s)).

Definition lower_char (c : ascii) : ascii :=
  let n := nat_of_ascii c in
  if ((65 <=? n) && (n <=? 90))%nat then ascii_of_nat (n + 32) else c.

(** [s.lower()] *)
Definition lower (s : string) : string :=
  string_of_list_ascii (map lower_char (list_ascii_of_string s)).

Fixpoint starts_with (p l : list ascii) : bool :=
  match p, l with
  | [], _ => true
  | a :: p', b :: l' => Ascii.eqb a b && starts_with p' l'
  | _ :: _, [] => false
  end.

(** [s.endswith(ext)] *)
Definition endswith (s ext : string) : bool :=
  starts_with (rev (list_ascii_of_string ext)) (rev (list_ascii_of_string s)).

(** [int(s)] on a string: optional sign, decimal digits, single
    underscores between digits, surrounding white space. [None] is
    [ValueError]. *)
Fixpoint digits_value (acc : Z) (l : list ascii) : option Z :=
  match l with
  | [] => Some acc
  | c :: l' =>
      if is_digit c then digits_value (acc * 10 + digit_value c) l'
      else if Ascii.eqb c "_" then
        match l' with
        | d :: _ => if is_digit d then digits_value acc l' else None
        | [] => None
        end
      else None
  end.

Definition unsigned_value (l : list ascii) : option Z :=
  match l with
  | c :: _ => if is_digit c then digits_value 0 l else None
  | [] => None
  end.

Definition py_int (s : string) : option Z :=
  match strip_chars (list_ascii_of_string s) with
  | c :: l =>
      if Ascii.eqb c "-" then Z.opp <$> unsigned_value l
      else if Ascii.eqb c "+" then unsigned_value l
      else unsigned_value (c :: l)
  | [] => None
  end.

(** ** Pagination: [get_pagination_params] *)

(** [int(request.args.get(key, dflt))]: the default is already an int. *)
Definition int_arg (args : gmap string string) (key : string) (dflt : Z) : option Z :=
  match args !! key with
  | Some s => py_int s
  | None => Some dflt
  end.

Definition get_pagination_params (args : gmap string string) : Z * Z :=
  match int_arg args "page" 1 with
  | None => (1, 10)
  | Some page =>
      match int_arg args "per_page" 10 with
      | None => (1, 10)
      | Some per_page =>
          let page := if page <? 1 then 1 else page in
          let per_page :=
            if (per_page <? 1) || (per_page >? 100) then 10 else per_page in
          (page, per_page)
      end
  end.


(** ** Exceptions *)

Inductive exn :=
| NotFound          (* werkzeug.exceptions.NotFound, raised by abort(404) *)
| DatabaseError     (* the engine refused a row at flush or commit *)
| OverflowError     (* float() of an int too large for a double *)
| AttributeError.   (* attribute access on None *)

(** A block of Python code either completes with a value or raises. *)
Inductive outcome (A : Type) :=
| Done (a : A)
| Raised (e : exn).
Arguments Done {A} a.
Arguments Raised {A} e.

#[global] Instance outcome_ret : MRet outcome := @Done.
#[global] Instance outcome_bind : MBind outcome := fun A B f m =>
  match m with
  | Done a => f a
  | Raised e => Raised e
  end.

(** [try: body except Exception as e: handler]. Every exception of the
    model is an instance of [Exception]: [NotFound] too, since werkzeug's
    [HTTPException] derives from [Exception]. *)
Definition try_except {A} (body : outcome A) (handler : exn -> A) : A :=
  match body with
  | Done a => a
  | Raised e => handler e
  end.

(** ** Tables ([models.py]) *)

Record NormalUser := {
  user_name : string;
  user_email : string;
  phone_number : option string }.

Record RecordRow := {
  r_type : json;
  title : json;
  description : json;
  status : string;
  latitude : json;
  longitude : json;
  location_name : json;
  created_at : Z;
  updated_at : Z;
  resolution_notes : json;
  is_anonymous : bool;
  vote_count : Z;
  urgency_level : json;
  normal_user_id : option Z;
  assigned_admin_id : option Z }.

Record Media := {
  media_record_id : Z;
  media_type : string;
  media_url : json;
  filename : json;
  file_size : json;
  uploaded_at : Z;
  image_url : json;
  video_url : json }.

Record Vote := {
  vote_record_id : Z;
  user_id : Z;
  vote_type : string;
  vote_created_at : Z }.

Record StatusHistory := {
  history_record_id : Z;
  old_status : option string;
  new_status : string;
  changed_by : option Z;
  change_reason : json;
  changed_at : Z }.

(** The database. [records], [media] and [votes] are keyed by their
    primary key [id]; the status history is an append-only ledger. *)
Record db := {
  records : gmap Z RecordRow;
  media : gmap Z Media;
  votes : gmap Z Vote;
  status_history : list StatusHistory;
  normal_users : gmap Z NormalUser }.

(** The identity carried by the access token:
    [{'id': ..., 'role': ...}]. *)
Record identity := {
  ident_id : Z;
  ident_role : string }.

(** The primary key of the next inserted row: one more than the largest
    key in the table. *)
Definition next_id {A} (m : gmap Z A) : Z :=
  1 + map_fold (fun k _ acc => Z.max k acc) 0 m.

Definition key_le {A} (a b : Z * A) : Prop := a.1 <= b.1.

#[global] Instance key_le_dec {A} : RelDecision (@key_le A).
Proof. intros a b. unfold key_le. apply _. Defined.

(** The rows of a table that satisfy [P], in primary-key order. *)
Definition select {A} (P : A -> bool) (m : gmap Z A) : list (Z * A) :=
  merge_sort key_le (filter (fun kv => P kv.2 = true) (map_to_list m)).

(** [query.filter_by(...).first()] *)
Definition first {A} (P : A -> bool) (m : gmap Z A) : option (Z * A) :=
  head (select P m).

(** [query.filter_by(...).count()] *)
Definition count {A} (P : A -> bool) (m : gmap Z A) : Z :=
  Z.of_nat (size (filter (fun kv => P kv.2 = true) m)).

(** NOT NULL columns of [Record] and [Media] that the handlers fill from
    the request. *)
Definition record_not_null (r : RecordRow) : bool :=
  is_not_none (r_type r) && is_not_none (title r) && is_not_none (description r).

Definition media_not_null (m : Media) : bool :=
  is_not_none (media_url m).

(** [data[k]] is present and is [None]. *)
Definition assigns_null (data : gmap string json) (k : string) : bool :=
  match data !! k with
  | Some JNull => true
  | _ => false
  end.

(** A double quote. *)
Definition dquote : string := String "034" "".

(** [Record.query.get_or_404(id)] *)
Definition get_or_404 (s : db) (id : Z) : outcome RecordRow :=
  match records s !! id with
  | Some r => Done r
  | None => Raised NotFound
  end.

(** ** Responses *)

Inductive body :=
| Error (error : string)
| Message (message : string)
| WithRecord (message : string) (record : gmap string json)
| AnonymousReport (message : string) (uuid : string) (record_id : Z)
    (record : gmap string json)
| VoteResult (message : string) (vote_count : Z) (user_vote : option string)
| RecordList (records : list (gmap string json))
    (page per_page total pages : Z) (has_next has_prev : bool).

Record response := make_response {
  resp_body : body;
  code : Z }.

(** ** Updating the database *)

Definition set_records (s : db) (t : gmap Z RecordRow) : db :=
  {| records := t; media := media s; votes := votes s;
     status_history := status_history s; normal_users := normal_users s |}.

Definition set_media (s : db) (t : gmap Z Media) : db :=
  {| records := records s; media := t; votes := votes s;
     status_history := status_history s; normal_users := normal_users s |}.

Definition set_votes (s : db) (t : gmap Z Vote) : db :=
  {| records := records s; media := media s; votes := t;
     status_history := status_history s; normal_users := normal_users s |}.

Definition set_status_history (s : db) (t : list StatusHistory) : db :=
  {| records := records s; media := media s; votes := votes s;
     status_history := t; normal_users := normal_users s |}.

(** ** Validators ([utils/validators.py]) *)

(** The result of [float(x)]. *)
Inductive float_result :=
| FloatOk (f : pyfloat)
| FloatError          (* ValueError or TypeError *)
| FloatOverflow.      (* OverflowError *)

(** The least integer magnitude that no longer rounds to a finite double. *)
Definition float_max_int : Z := 2 ^ 1024 - 2 ^ 970.

(** [lo <= f <= hi] on floats: false on NaN and on the infinities. *)
Definition between (lo hi : Z) (f : pyfloat) : bool :=
  match f with
  | FFinite q => Qle_bool (inject_Z lo) q && Qle_bool q (inject_Z hi)
  | _ => false
  end.

Definition image_extensions : list string :=
  [".jpg"; ".jpeg"; ".png"; ".gif"; ".webp"; ".bmp"].

Definition video_extensions : list string :=
  [".mp4"; ".avi"; ".mov"; ".wmv"; ".flv"; ".webm"; ".mkv"].

Definition valid_types : list string :=
  ["red-flag"; "intervention"; "incident"; "complaint"; "suggestion"; "emergency"].

(** The patterns of the validators are sequences of character sets, each
    with a repetition range: [[a-z]+] is a set taken one or more times,
    [\+?] a set of one character taken at most once, [[0-9]{10,15}] the
    digits taken ten to fifteen times, and a literal character a set of
    one character taken once. *)
Record atom := {
  chars : ascii -> bool;
  at_least : nat;
  at_most : option nat }.

Definition one (c : ascii) : atom :=
  {| chars := Ascii.eqb c; at_least := 1; at_most := Some 1%nat |}.

Definition literal (s : string) : list atom := one <$> list_ascii_of_string s.

(** Whether a prefix of [s] matches the set [lo] to [hi] times and the
    rest of [s] satisfies [k]. *)
Fixpoint match_atom (set : ascii -> bool) (lo : nat) (hi : option nat)
    (k : list ascii -> bool) (s : list ascii) : bool :=
  match lo with O => k s | S _ => false end
  || match s with
     | c :: s' =>
         match hi with
         | Some O => false
         | _ => set c && match_atom set (pred lo) (pred <$> hi) k s'
         end
     | [] => false
     end.

Fixpoint match_atoms (p : list atom) (k : list ascii -> bool) (s : list ascii) : bool :=
  match p with
  | [] => k s
  | a :: p' => match_atom (chars a) (at_least a) (at_most a) (match_atoms p' k) s
  end.

(** [$]: at the end of the string, and before a newline that ends it. *)
Definition at_end (s : list ascii) : bool :=
  match s with
  | [] => true
  | [c] => Ascii.eqb c "010"
  | _ => false
  end.

(** [re.match('^p$', s) is not None] *)
Definition re_match (p : list atom) (s : string) : bool :=
  match_atoms p at_end (list_ascii_of_string s).

(** [re.sub('[set]', '', s)] *)
Definition re_sub (set : ascii -> bool) (s : string) : string :=
  string_of_list_ascii (List.filter (fun c => negb (set c)) (list_ascii_of_string s)).

Definition in_range (lo hi c : ascii) : bool :=
  ((nat_of_ascii lo <=? nat_of_ascii c) && (nat_of_ascii c <=? nat_of_ascii hi))%nat.

Definition one_of (l : list ascii) (c : ascii) : bool := existsb (Ascii.eqb c) l.

(** [[a-zA-Z0-9._%+-]] *)
Definition local_part (c : ascii) : bool :=
  in_range "a" "z" c || in_range "A" "Z" c || in_range "0" "9" c
  || one_of ["."; "_"; "%"; "+"; "-"]%char c.

(** [^[a-zA-Z0-9._%+-]+@gmail\.com$] *)
Definition gmail_pattern : list atom :=
  {| chars := local_part; at_least := 1; at_most := None |} :: literal "@gmail.com".

(** The validators below take a value of the request body. [None] is the
    [TypeError] that [re] raises on a value that is not a string. *)
Definition validate_email (email : json) : option bool :=
  if negb (truthy email) then Some false
  else
    match email with
    | JStr e => Some (re_match gmail_pattern e)
    | _ => None
    end.

(** [[\s\-\(\)]] *)
Definition separator (c : ascii) : bool :=
  is_space c || one_of ["-"; "("; ")"]%char c.

(** [^\+?[0-9]{10,15}$] *)
Definition phone_pattern : list atom :=
  [ {| chars := Ascii.eqb "+"; at_least := 0; at_most := Some 1%nat |};
    {| chars := in_range "0" "9"; at_least := 10; at_most := Some 15%nat |} ].

Definition validate_phone_number (phone : json) : option bool :=
  if negb (truthy phone) then Some true
  else
    match phone with
    | JStr p => Some (re_match phone_pattern (re_sub separator p))
    | _ => None
    end.

(** The set of the pattern of [sanitize_input]: the angle brackets, the
    double and the single quote, and the characters % ; ( ) & +. *)
Definition harmful (c : ascii) : bool :=
  one_of ["<"; ">"; "034"; "'"; "%"; ";"; "("; ")"; "&"; "+"]%char c.

Definition sanitize_input (text : json) : option json :=
  if negb (truthy text) then Some text
  else
    match text with
    | JStr t => Some (JStr (strip (re_sub harmful t)))
    | _ => None
    end.

(** What the application takes from outside the repository.
    Library functions: [float_of_str s] is [float(s)] on a string ([None]:
    [ValueError]); [urlparse u] gives the scheme and the network location
    of [u] ([None]: it raised); [isoformat t] is [t.isoformat()].
    The storage engine: [ilike v pat] is the SQL test [v ILIKE pat] on a
    column value; [accepts_record], [accepts_media] and [accepts_history]
    say whether the engine can write the values of a row into the typed
    columns of its table. *)
Class External := {
  float_of_str : string -> option pyfloat;
  urlparse : string -> option (string * string);
  isoformat : Z -> string;
  ilike : json -> string -> bool;
  accepts_record : RecordRow -> bool;
  accepts_media : Media -> bool;
  accepts_history : StatusHistory -> bool }.

Section Handlers.

Context {outside : External}.

(** Flushing a new record row, a changed record row, a media row or a
    history row to the database. An UPDATE writes the assigned columns. *)
Definition flush_record (r : RecordRow) : outcome unit :=
  if record_not_null r && accepts_record r then Done tt else Raised DatabaseError.

Definition flush_record_update (data : gmap string json) (r : RecordRow) : outcome unit :=
  if assigns_null data "type" || assigns_null data "title"
     || assigns_null data "description" then Raised DatabaseError
  else if accepts_record r then Done tt
  else Raised DatabaseError.

Definition flush_media (m : Media) : outcome unit :=
  if media_not_null m && accepts_media m then Done tt else Raised DatabaseError.

Definition flush_history (h : StatusHistory) : outcome unit :=
  if accepts_history h then Done tt else Raised DatabaseError.

(** [float(v)]. An int in range is kept exact: rounding it to a double
    does not move it across the integer bounds it is compared with. *)
Definition py_float (v : json) : float_result :=
  match v with
  | JNull => FloatError
  | JBool b => FloatOk (FFinite (inject_Z (if b then 1 else 0)))
  | JInt n =>
      if Z.abs n <? float_max_int then FloatOk (FFinite (inject_Z n))
      else FloatOverflow
  | JFloat f => FloatOk f
  | JStr s =>
      match float_of_str s with
      | Some f => FloatOk f
      | None => FloatError
      end
  | JArr _ | JObj _ => FloatError
  end.

Definition validate_coordinates (latitude longitude : json) : outcome bool :=
  if negb (is_not_none latitude) || negb (is_not_none longitude) then Done true
  else
    match py_float latitude with
    | FloatError => Done false
    | FloatOverflow => Raised OverflowError
    | FloatOk lat =>
        match py_float longitude with
        | FloatError => Done false
        | FloatOverflow => Raised OverflowError
        | FloatOk lng =>
            if negb (between (-90) 90 lat) then Done false
            else if negb (between (-180) 180 lng) then Done false
            else Done true
        end
    end.

Definition validate_media_url (url : json) (media_type : string) : bool :=
  if negb (truthy url) then true
  else
    match url with
    | JStr u =>
        match urlparse u with
        | None => false
        | Some (scheme, netloc) =>
            if negb (negb (String.eqb scheme "") && negb (String.eqb netloc "")) then false
            else if negb (bool_decide (scheme ∈ ["http"; "https"])) then false
            else if negb (String.eqb media_type "") then
              let url_lower := lower u in
              if String.eqb media_type "image" then
                if negb (existsb (endswith url_lower) image_extensions) then false
                else true
              else if String.eqb media_type "video" then
                if negb (existsb (endswith url_lower) video_extensions) then false
                else true
              else true
            else true
        end
    | _ => false   (* urlparse raises on a value that is not a string *)
    end.

(** ** Projections ([to_dict], [to_public_dict]) *)

Definition json_of_id (o : option Z) : json :=
  match o with
  | Some n => JInt n
  | None => JNull
  end.

Definition media_to_dict (id : Z) (m : Media) : list (string * json) :=
  [ ("id", JInt id);
    ("record_id", JInt (media_record_id m));
    ("media_type", JStr (media_type m));
    ("media_url", media_url m);
    ("filename", filename m);
    ("file_size", file_size m);
    ("uploaded_at", JStr (isoformat (uploaded_at m)));
    ("image_url", image_url m);
    ("video_url", video_url m) ].

(** [record.media]: the media rows of record [id]. *)
Definition media_of (s : db) (id : Z) : list (Z * Media) :=
  select (fun m => media_record_id m =? id) (media s).

(** [record.normal_user] *)
Definition normal_user_of (s : db) (r : RecordRow) : option NormalUser :=
  normal_user_id r ≫= fun uid => normal_users s !! uid.

Definition to_dict (s : db) (id : Z) (r : RecordRow) : gmap string json :=
  let media := head (media_of s id) in
  list_to_map
    [ ("id", JInt id);
      ("type", r_type r);
      ("title", title r);
      ("description", description r);
      ("status", JStr (status r));
      ("latitude", latitude r);
      ("longitude", longitude r);
      ("location_name", location_name r);
      ("urgency_level", urgency_level r);
      ("vote_count", JInt (vote_count r));
      ("is_anonymous", JBool (is_anonymous r));
      ("resolution_notes", resolution_notes r);
      ("normal_user_id", json_of_id (normal_user_id r));
      ("assigned_admin_id", json_of_id (assigned_admin_id r));
      ("created_at", JStr (isoformat (created_at r)));
      ("updated_at", JStr (isoformat (updated_at r)));
      ("image_url",
        match media with
        | Some (_, m) => if truthy (image_url m) then image_url m else JNull
        | None => JNull
        end);
      ("video_url",
        match media with
        | Some (_, m) => if truthy (video_url m) then video_url m else JNull
        | None => JNull
        end);
      ("media", JArr ((fun km => JObj (media_to_dict km.1 km.2)) <$> media_of s id));
      ("creator_name",
        match normal_user_of s r with
        | Some u => if negb (is_anonymous r) then JStr (user_name u) else JStr "Anonymous"
        | None => JStr "Anonymous"
        end) ].

Definition to_public_dict (s : db) (id : Z) (r : RecordRow) : gmap string json :=
  let data := to_dict s id r in
  if is_anonymous r || true then
    <["creator_name" := JStr "Anonymous"]> (delete "normal_user_id" data)
  else data.

(** ** The public list view ([get_public_records]) *)

(** [f and f != 'all'] on an optional query argument. *)
Definition active_filter (f : option string) : option string :=
  match f with
  | Some v => if negb (String.eqb v "") && negb (String.eqb v "all") then Some v else None
  | None => None
  end.

(** [Record.column == v] *)
Definition column_is (col : json) (v : string) : bool :=
  match col with
  | JStr c => String.eqb c v
  | _ => false
  end.

Definition matches_filter (f : option string) (col : json) : bool :=
  match active_filter f with
  | Some v => column_is col v
  | None => true
  end.

Definition matches_search (search_term : string) (r : RecordRow) : bool :=
  if negb (String.eqb search_term "") then
    let search_filter := "%" +:+ search_term +:+ "%" in
    ilike (title r) search_filter
    || ilike (description r) search_filter
    || ilike (location_name r) search_filter
  else true.

(** [order_by(Record.vote_count.desc(), Record.created_at.desc())] *)
Definition public_order (a b : Z * RecordRow) : Prop :=
  vote_count b.2 < vote_count a.2
  \/ (vote_count a.2 = vote_count b.2 /\ created_at b.2 <= created_at a.2).

#[global] Instance public_order_dec : RelDecision public_order.
Proof. intros a b. unfold public_order. apply _. Defined.

(** [query.paginate(page=page, per_page=per_page, error_out=False)]:
    the items of the page, the total and the number of pages. *)
Definition paginate {A} (page per_page : Z) (rows : list A) : list A * Z * Z :=
  let total := Z.of_nat (length rows) in
  let items := take (Z.to_nat per_page) (drop (Z.to_nat ((page - 1) * per_page)) rows) in
  let pages := if total =? 0 then 0 else (total + per_page - 1) / per_page in
  (items, total, pages).

Definition get_public_records (s : db) (args : gmap string string) : response :=
  let '(page, per_page) := get_pagination_params args in
  let status_filter := args !! "status" in
  let type_filter := args !! "type" in
  let urgency_filter := args !! "urgency" in
  let search_term := strip (default "" (args !! "search")) in
  let query :=
    select (fun r =>
      negb (String.eqb (status r) "draft")
      && matches_filter status_filter (JStr (status r))
      && matches_filter type_filter (r_type r)
      && matches_filter urgency_filter (urgency_level r)
      && matches_search search_term r) (records s) in
  let query := merge_sort public_order query in
  let '(items, total, pages) := paginate page per_page query in
  make_response
    (RecordList ((fun kr => to_public_dict s kr.1 kr.2) <$> items)
       page per_page total pages
       (bool_decide (page < pages)) (bool_decide (1 < page)))
    200.

(** ** Creating records ([anonymous_report], [create_record]) *)

(** The media row both creation paths attach. *)
Definition new_media (now record_id : Z) (image video : json) : Media :=
  {| media_record_id := record_id;
     media_type := if truthy image then "image" else "video";
     media_url := py_or image video;
     filename := JNull;
     file_size := JNull;
     uploaded_at := now;
     image_url := image;
     video_url := video |}.

(** [db.session.add(media)], written at the commit. *)
Definition add_media (s : db) (m : Media) : outcome db :=
  _ ← flush_media m;
  Done (set_media s (<[next_id (media s) := m]> (media s))).

(** [db.session.add(new_record); db.session.flush()]: the new row and
    its primary key. *)
Definition add_record (s : db) (r : RecordRow) : outcome (db * Z) :=
  _ ← flush_record r;
  let id := next_id (records s) in
  Done (set_records s (<[id := r]> (records s)), id).

(** The row [anonymous_report] builds from the request. *)
Definition anonymous_record (now : Z) (data : gmap string json) : RecordRow :=
  {| r_type := dict_get data "type";
     title := dict_get data "title";
     description := dict_get data "description";
     status := "under-investigation";
     latitude := dict_get data "latitude";
     longitude := dict_get data "longitude";
     location_name := dict_get data "location_name";
     created_at := now;
     updated_at := now;
     resolution_notes := JNull;
     is_anonymous := true;
     vote_count := 0;
     urgency_level := dict_get_default data "urgency_level" (JStr "medium");
     normal_user_id := None;
     assigned_admin_id := None |}.

Definition anonymous_report (now : Z) (uuid : string) (s : db)
    (data : gmap string json) : db * response :=
  if negb (truthy (dict_get data "title")) || negb (truthy (dict_get data "description")) then
    (s, make_response (Error "Title and description are required") 400)
  else if negb (in_strings (dict_get data "type") valid_types) then
    (s, make_response
          (Error "Type must be one of: red-flag, intervention, incident, complaint, suggestion, emergency")
          400)
  else
    try_except
      (let new_record := anonymous_record now data in
       '(s1, id) ← add_record s new_record;
       s2 ← (if truthy (dict_get data "image_url") || truthy (dict_get data "video_url") then
               add_media s1 (new_media now id (dict_get data "image_url")
                               (dict_get data "video_url"))
             else Done s1);
       Done (s2, make_response
                   (AnonymousReport "Anonymous report submitted successfully" uuid id
                      (to_public_dict s2 id new_record))
                   201))
      (fun _ => (s, make_response (Error "Failed to create anonymous report") 500)).

(** An exception that no handler of the view catches: the application's
    500 handler rolls the session back. *)
Definition unhandled (s : db) (view : outcome (db * response)) : db * response :=
  try_except view
    (fun _ => (s, make_response (Error "Internal server error") 500)).

(** [if data.get('type') not in [...]: data['type'] = 'red-flag'] *)
Definition default_type (data : gmap string json) : gmap string json :=
  if negb (in_strings (dict_get data "type") valid_types)
  then <["type" := JStr "red-flag"]> data else data.

(** The row [create_record] builds from the request. *)
Definition owned_record (now : Z) (ident : identity) (data : gmap string json) : RecordRow :=
  {| r_type := dict_get_default data "type" (JStr "red-flag");
     title := dict_get data "title";
     description := dict_get_default data "description" (JStr "");
     status := "draft";
     latitude := dict_get data "latitude";
     longitude := dict_get data "longitude";
     location_name := dict_get data "location_name";
     created_at := now;
     updated_at := now;
     resolution_notes := JNull;
     is_anonymous := false;
     vote_count := 0;
     urgency_level := dict_get_default data "urgency_level" (JStr "medium");
     normal_user_id := Some (ident_id ident);
     assigned_admin_id := None |}.

Definition create_record (now : Z) (s : db) (ident : identity)
    (data : gmap string json) : db * response :=
  unhandled s (
  if negb (String.eqb (ident_role ident) "user") then
    Done (s, make_response (Error "Only users can create records") 403)
  else if negb (truthy (dict_get data "title")) then
    Done (s, make_response (Error "Title is required") 400)
  else
    let data := default_type data in
    coordinates_ok ←
      (if is_not_none (dict_get data "latitude") || is_not_none (dict_get data "longitude")
       then validate_coordinates (dict_get data "latitude") (dict_get data "longitude")
       else Done true);
    if negb coordinates_ok then
      Done (s, make_response (Error "Invalid coordinates provided") 400)
    else
      let image := dict_get data "image_url" in
      let video := dict_get data "video_url" in
      if truthy image && negb (validate_media_url image "image") then
        Done (s, make_response (Error "Invalid image URL format") 400)
      else if truthy video && negb (validate_media_url video "video") then
        Done (s, make_response (Error "Invalid video URL format") 400)
      else
        Done (try_except
          (let new_record := owned_record now ident data in
           '(s1, id) ← add_record s new_record;
           s2 ← (if truthy image || truthy video then
                   add_media s1 (new_media now id image video)
                 else Done s1);
           (* committed; the confirmation e-mail reads the user's row, and
              a missing row raises after the commit *)
           match normal_users s2 !! ident_id ident with
           | Some user =>
               Done (s2, make_response
                           (WithRecord "Record created successfully" (to_dict s2 id new_record))
                           201)
           | None => Done (s2, make_response (Error "Failed to create record") 500)
           end)
          (fun _ => (s, make_response (Error "Failed to create record") 500)))).

(** ** Owner edits ([update_record], [delete_record]) *)

(** The authorization test of both handlers:
    [identity.get('role') != 'user' or record.normal_user_id != identity['id']]. *)
Definition not_owner (ident : identity) (record : RecordRow) : bool :=
  negb (String.eqb (ident_role ident) "user")
  || bool_decide (normal_user_id record ≠ Some (ident_id ident)).

(** The media part of an update: change the first media row of the
    record, or attach a new one. *)
Definition update_media (now : Z) (s : db) (id : Z) (data : gmap string json) : outcome db :=
  if dict_has data "image_url" || dict_has data "video_url" then
    match first (fun m => media_record_id m =? id) (media s) with
    | Some (mid, m) =>
        let m' :=
          {| media_record_id := media_record_id m;
             media_type := media_type m;
             media_url := py_or (dict_get data "image_url") (dict_get data "video_url");
             filename := filename m;
             file_size := file_size m;
             uploaded_at := uploaded_at m;
             image_url := dict_get_default data "image_url" (image_url m);
             video_url := dict_get_default data "video_url" (video_url m) |} in
        _ ← flush_media m';
        Done (set_media s (<[mid := m']> (media s)))
    | None =>
        add_media s (new_media now id (dict_get data "image_url") (dict_get data "video_url"))
    end
  else Done s.

(** The fields of a record after a patch: [if 'k' in data: record.k =
    data['k']] for each editable field, and a fresh [updated_at]. *)
Definition apply_patch (now : Z) (data : gmap string json) (record : RecordRow) : RecordRow :=
  {| r_type := dict_get_default data "type" (r_type record);
     title := dict_get_default data "title" (title record);
     description := dict_get_default data "description" (description record);
     status := status record;
     latitude := dict_get_default data "latitude" (latitude record);
     longitude := dict_get_default data "longitude" (longitude record);
     location_name := dict_get_default data "location_name" (location_name record);
     created_at := created_at record;
     updated_at := now;
     resolution_notes := resolution_notes record;
     is_anonymous := is_anonymous record;
     vote_count := vote_count record;
     urgency_level := dict_get_default data "urgency_level" (urgency_level record);
     normal_user_id := normal_user_id record;
     assigned_admin_id := assigned_admin_id record |}.

Definition update_record (now : Z) (s : db) (ident : identity) (id : Z)
    (data : gmap string json) : db * response :=
  try_except
    (record ← get_or_404 s id;
     if not_owner ident record then
       Done (s, make_response (Error "Unauthorized") 403)
     else if negb (String.eqb (status record) "draft") then
       Done (s, make_response (Error "Only draft records can be edited") 400)
     else
       coordinates_ok ←
         (if dict_has data "latitude" || dict_has data "longitude" then
            let lat := dict_get_default data "latitude" (latitude record) in
            let lng := dict_get_default data "longitude" (longitude record) in
            if is_not_none lat || is_not_none lng then validate_coordinates lat lng
            else Done true
          else Done true);
       if negb coordinates_ok then
         Done (s, make_response (Error "Invalid coordinates") 400)
       else if dict_has data "image_url" && truthy (dict_get data "image_url")
               && negb (validate_media_url (dict_get data "image_url") "image") then
         Done (s, make_response (Error "Invalid image URL") 400)
       else if dict_has data "video_url" && truthy (dict_get data "video_url")
               && negb (validate_media_url (dict_get data "video_url") "video") then
         Done (s, make_response (Error "Invalid video URL") 400)
       else
         let record' := apply_patch now data record in
         _ ← flush_record_update data record';
         let s1 := set_records s (<[id := record']> (records s)) in
         s2 ← update_media now s1 id data;
         Done (s2, make_response
                     (WithRecord "Record updated successfully" (to_dict s2 id record'))
                     200))
    (fun _ => (s, make_response (Error "Failed to update record") 500)).

(** [db.session.delete(record)] with the cascades of [models.py]:
    the record's media, votes and status history go with it. *)
Definition delete_cascade (s : db) (id : Z) : db :=
  {| records := delete id (records s);
     media := filter (fun km => media_record_id km.2 ≠ id) (media s);
     votes := filter (fun kv => vote_record_id kv.2 ≠ id) (votes s);
     status_history := filter (fun h => history_record_id h ≠ id) (status_history s);
     normal_users := normal_users s |}.

Definition delete_record (s : db) (ident : identity) (id : Z) : db * response :=
  try_except
    (record ← get_or_404 s id;
     if not_owner ident record then
       Done (s, make_response (Error "Unauthorized") 403)
     else if negb (String.eqb (status record) "draft") then
       Done (s, make_response (Error "Only draft records can be deleted") 400)
     else
       Done (delete_cascade s id, make_response (Message "Record deleted successfully") 200))
    (fun _ => (s, make_response (Error "Failed to delete record") 500)).

(** ** Voting ([update_vote_count], [vote_record], [remove_vote]) *)

Definition votes_on (record_id : Z) (v : Vote) : bool :=
  vote_record_id v =? record_id.

Definition vote_of (record_id uid : Z) (v : Vote) : bool :=
  (vote_record_id v =? record_id) && (user_id v =? uid).

Definition set_vote_count (r : RecordRow) (n : Z) : RecordRow :=
  {| r_type := r_type r; title := title r; description := description r;
     status := status r; latitude := latitude r; longitude := longitude r;
     location_name := location_name r; created_at := created_at r;
     updated_at := updated_at r; resolution_notes := resolution_notes r;
     is_anonymous := is_anonymous r; vote_count := n;
     urgency_level := urgency_level r; normal_user_id := normal_user_id r;
     assigned_admin_id := assigned_admin_id r |}.

(** The count query flushes the session first (autoflush is on for the
    session of [db = SQLAlchemy()]), so it sees the vote row the caller has
    just added, changed or deleted. *)
Definition update_vote_count (s : db) (record_id : Z) : db * Z :=
  let vote_count := count (votes_on record_id) (votes s) in
  match records s !! record_id with
  | Some record =>
      (set_records s (<[record_id := set_vote_count record vote_count]> (records s)),
       vote_count)
  | None => (s, vote_count)
  end.

(** The middle of [vote_record]: the caller's existing vote row gets the
    new type, or a new row is added. *)
Definition upsert_vote (now : Z) (s : db) (record_id uid : Z) (vote_type : string)
    : db * string :=
  let existing_vote := first (vote_of record_id uid) (votes s) in
  match existing_vote with
  | Some (vid, v) =>
      (set_votes s
         (<[vid := {| vote_record_id := vote_record_id v;
                      user_id := user_id v;
                      vote_type := vote_type;
                      vote_created_at := vote_created_at v |}]> (votes s)),
       "Vote updated successfully")
  | None =>
      (set_votes s
         (<[next_id (votes s) :=
              {| vote_record_id := record_id;
                 user_id := uid;
                 vote_type := vote_type;
                 vote_created_at := now |}]> (votes s)),
       "Vote added successfully")
  end.

Definition vote_type_message : string :=
  "Vote type must be " +:+ dquote +:+ "support" +:+ dquote +:+ " or "
  +:+ dquote +:+ "urgent" +:+ dquote.

Definition vote_types : list string := ["support"; "urgent"].

Definition vote_record (now : Z) (s : db) (ident : identity) (record_id : Z)
    (data : gmap string json) : db * response :=
  if negb (String.eqb (ident_role ident) "user") then
    (s, make_response (Error "Only users can vote") 403)
  else
    match dict_get_default data "vote_type" (JStr "support") with
    | JStr vote_type =>
        if negb (bool_decide (vote_type ∈ vote_types)) then
          (s, make_response (Error vote_type_message) 400)
        else
          try_except
            (record ← get_or_404 s record_id;
             let '(s1, message) := upsert_vote now s record_id (ident_id ident) vote_type in
             let '(s2, vote_count) := update_vote_count s1 record_id in
             Done (s2, make_response (VoteResult message vote_count (Some vote_type)) 200))
            (fun _ => (s, make_response (Error "Failed to vote on record") 500))
    | _ => (s, make_response (Error vote_type_message) 400)
    end.

Definition remove_vote (s : db) (ident : identity) (record_id : Z) : db * response :=
  if negb (String.eqb (ident_role ident) "user") then
    (s, make_response (Error "Only users can remove votes") 403)
  else
    match first (vote_of record_id (ident_id ident)) (votes s) with
    | None => (s, make_response (Error "No vote found to remove") 404)
    | Some (vid, _) =>
        let s1 := set_votes s (delete vid (votes s)) in
        let '(s2, vote_count) := update_vote_count s1 record_id in
        (s2, make_response (VoteResult "Vote removed successfully" vote_count None) 200)
    end.

(** ** Status transitions ([create_status_history], [update_status]) *)

Definition new_history (record_id : Z) (old_status new_status : string)
    (admin_id : option Z) (reason : json) (now : Z) : StatusHistory :=
  {| history_record_id := record_id;
     old_status := Some old_status;
     new_status := new_status;
     changed_by := admin_id;
     change_reason := reason;
     changed_at := now |}.

Definition create_status_history (s : db) (record_id : Z) (old_status new_status : string)
    (admin_id : option Z) (reason : json) (now : Z) : outcome db :=
  let history := new_history record_id old_status new_status admin_id reason now in
  _ ← flush_history history;
  Done (set_status_history s (status_history s ++ [history])).

(** The statuses an administrator may set. *)
Definition status_targets : list string :=
  ["under-investigation"; "rejected"; "resolved"].

(** The fields of a record after a transition to [new_status] by the
    admin [ident]. *)
Definition transition (now : Z) (ident : identity) (data : gmap string json)
    (new_status : string) (record : RecordRow) : RecordRow :=
  {| r_type := r_type record;
     title := title record;
     description := description record;
     status := new_status;
     latitude := latitude record;
     longitude := longitude record;
     location_name := location_name record;
     created_at := created_at record;
     updated_at := now;
     resolution_notes :=
       if truthy (dict_get data "resolution_notes")
       then dict_get data "resolution_notes"
       else resolution_notes record;
     is_anonymous := is_anonymous record;
     vote_count := vote_count record;
     urgency_level := urgency_level record;
     normal_user_id := normal_user_id record;
     assigned_admin_id :=
       if negb (truthy_id (assigned_admin_id record))
       then Some (ident_id ident)
       else assigned_admin_id record |}.

Definition update_status (now : Z) (s : db) (ident : identity) (id : Z)
    (data : gmap string json) : db * response :=
  if negb (String.eqb (ident_role ident) "admin") then
    (s, make_response (Error "Only admins can update status") 403)
  else
    try_except
      (record ← get_or_404 s id;
       let reason := dict_get_default data "reason" (JStr "") in
       match dict_get data "status" with
       | JStr new_status =>
           if negb (bool_decide (new_status ∈ status_targets)) then
             Done (s, make_response (Error "Invalid status") 400)
           else
             let old_status := status record in
             let record' := transition now ident data new_status record in
             _ ← flush_record_update ∅ record';
             let s1 := set_records s (<[id := record']> (records s)) in
             s2 ← create_status_history s1 id old_status new_status
                    (Some (ident_id ident)) reason now;
             (* committed; the e-mail and SMS notifications that follow
                report their own failures and do not touch the database *)
             Done (s2, make_response
                         (WithRecord ("Status updated to " +:+ new_status) (to_dict s2 id record'))
                         200)
       | _ => Done (s, make_response (Error "Invalid status") 400)
       end)
      (fun _ => (s, make_response (Error "Status update failed") 500)).

(** The records of a list response. *)
Definition response_records (r : response) : list (gmap string json) :=
  match resp_body r with
  | RecordList l _ _ _ _ _ _ => l
  | _ => []
  end.

(** ** Sequences of requests *)

(** A status request of an administrator. *)
Record status_call := {
  call_now : Z;
  call_ident : identity;
  call_id : Z;
  call_data : gmap string json }.

Definition run_status_call (s : db) (c : status_call) : db :=
  (update_status (call_now c) s (call_ident c) (call_id c) (call_data c)).1.

Definition run_status_calls (calls : list status_call) (s : db) : db :=
  fold_left run_status_call calls s.

(** A vote request: casting ([POST]) or retracting ([DELETE]). *)
Inductive vote_op :=
| Cast (now : Z) (ident : identity) (record_id : Z) (data : gmap string json)
| Retract (ident : identity) (record_id : Z).

Definition run_vote_op (s : db) (op : vote_op) : db :=
  match op with
  | Cast now ident record_id data => (vote_record now s ident record_id data).1
  | Retract ident record_id => (remove_vote s ident record_id).1
  end.

Definition run_vote_ops (ops : list vote_op) (s : db) : db :=
  fold_left run_vote_op ops s.

(** The cached count of every record is the number of vote rows that
    reference it. *)
Definition vote_count_consistent (s : db) : Prop :=
  map_Forall (fun id r => vote_count r = count (votes_on id) (votes s)) (records s).

(** No two vote rows share their (record, user) pair. *)
Definition one_vote_per_pair (s : db) : Prop :=
  map_Forall (fun k1 v1 =>
    map_Forall (fun k2 v2 =>
      vote_record_id v1 = vote_record_id v2 -> user_id v1 = user_id v2 -> k1 = k2)
      (votes s)) (votes s).

#[global] Instance vote_count_consistent_dec s : Decision (vote_count_consistent s).
Proof. unfold vote_count_consistent. apply _. Defined.

#[global] Instance one_vote_per_pair_dec s : Decision (one_vote_per_pair s).
Proof. unfold one_vote_per_pair. apply _. Defined.

(** ** The routes that change the database *)

(** A request to one of the routes that write: [POST /public/report],
    [POST /records], [PATCH /records/<id>], [DELETE /records/<id>],
    [POST] and [DELETE /records/<id>/vote], [PATCH /records/<id>/status]. *)
Inductive request :=
| PostPublicReport (now : Z) (uuid : string) (data : gmap string json)
| PostRecord (now : Z) (ident : identity) (data : gmap string json)
| PatchRecord (now : Z) (ident : identity) (id : Z) (data : gmap string json)
| DeleteRecord (ident : identity) (id : Z)
| PostVote (now : Z) (ident : identity) (record_id : Z) (data : gmap string json)
| DeleteVote (ident : identity) (record_id : Z)
| PatchStatus (now : Z) (ident : identity) (id : Z) (data : gmap string json).

Definition handle (s : db) (r : request) : db * response :=
  match r with
  | PostPublicReport now uuid data => anonymous_report now uuid s data
  | PostRecord now ident data => create_record now s ident data
  | PatchRecord now ident id data => update_record now s ident id data
  | DeleteRecord ident id => delete_record s ident id
  | PostVote now ident record_id data => vote_record now s ident record_id data
  | DeleteVote ident record_id => remove_vote s ident record_id
  | PatchStatus now ident id data => update_status now s ident id data
  end.

Definition run_requests (requests : list request) (s : db) : db :=
  fold_left (fun s r => (handle s r).1) requests s.

(** The values of the status column. *)
Definition statuses : list string :=
  ["draft"; "under-investigation"; "resolved"; "rejected"].

(** The rows the two creation routes build. *)
Definition created_row (r : RecordRow) : Prop :=
  (exists now data,
     r = anonymous_record now data
     /\ in_strings (dict_get data "type") valid_types = true
     /\ truthy (dict_get data "title") = true
     /\ truthy (dict_get data "description") = true)
  \/ (exists now ident data,
        r = owned_record now ident (default_type data)
        /\ ident_role ident = "user"
        /\ truthy (dict_get data "title") = true).

(** The media table after a request about record [id]: as it was, with a
    new row for [id], or with a row of [id] rewritten. *)
Definition media_added (s s' : db) (id : Z) : Prop :=
  media s' = media s
  \/ exists m, media s' = <[next_id (media s) := m]> (media s) /\ media_record_id m = id.

Definition media_changed (s s' : db) (id : Z) : Prop :=
  media_added s s' id
  \/ exists mid m m',
       media s !! mid = Some m /\ media_record_id m = id /\ media_record_id m' = id
       /\ media s' = <[mid := m']> (media s).

(** What one request can do to the database. *)
Inductive effect (s s' : db) : Prop :=
| effect_none :
    s' = s -> effect s s'
| effect_created r :
    created_row r ->
    records s' = <[next_id (records s) := r]> (records s) ->
    media_added s s' (next_id (records s)) ->
    votes s' = votes s -> status_history s' = status_history s ->
    normal_users s' = normal_users s ->
    effect s s'
| effect_patched now ident id data r :
    records s !! id = Some r -> status r = "draft" ->
    not_owner ident r = false ->
    records s' = <[id := apply_patch now data r]> (records s) ->
    media_changed s s' id ->
    votes s' = votes s -> status_history s' = status_history s ->
    normal_users s' = normal_users s ->
    effect s s'
| effect_deleted ident id r :
    records s !! id = Some r -> status r = "draft" ->
    not_owner ident r = false ->
    s' = delete_cascade s id ->
    effect s s'
| effect_voted now ident id vote_type :
    is_Some (records s !! id) -> ident_role ident = "user" ->
    vote_type ∈ vote_types ->
    s' = (update_vote_count (upsert_vote now s id (ident_id ident) vote_type).1 id).1 ->
    effect s s'
| effect_unvoted ident id vid v :
    votes s !! vid = Some v -> vote_record_id v = id -> user_id v = ident_id ident ->
    ident_role ident = "user" ->
    s' = (update_vote_count (set_votes s (delete vid (votes s))) id).1 ->
    effect s s'
| effect_transitioned now ident id data target r :
    records s !! id = Some r -> target ∈ status_targets ->
    ident_role ident = "admin" ->
    dict_get data "status" = JStr target ->
    records s' = <[id := transition now ident data target r]> (records s) ->
    status_history s'
    = status_history s
      ++ [new_history id (status r) target (Some (ident_id ident))
            (dict_get_default data "reason" (JStr "")) now] ->
    votes s' = votes s -> media s' = media s ->
    normal_users s' = normal_users s ->
    effect s s'.

(** ** Invariants of the database *)

(** Every record has one of the four statuses. *)
Definition statuses_known (s : db) : Prop :=
  map_Forall (fun _ r => status r ∈ statuses) (records s).

(** A record is anonymous exactly when it has no owner, and a record
    without an owner is not a draft. *)
Definition ownership_coherent (s : db) : Prop :=
  map_Forall (fun _ r =>
    (is_anonymous r = true <-> normal_user_id r = None)
    /\ (normal_user_id r = None -> status r <> "draft")) (records s).

(** A draft has no assigned administrator. *)
Definition drafts_unassigned (s : db) : Prop :=
  map_Forall (fun _ r => status r = "draft" -> assigned_admin_id r = None) (records s).

(** Every vote row and every media row belongs to a record of the
    database. *)
Definition rows_reference_records (s : db) : Prop :=
  map_Forall (fun _ v => is_Some (records s !! vote_record_id v)) (votes s)
  /\ map_Forall (fun _ m => is_Some (records s !! media_record_id m)) (media s).

(** Every entry of the status history belongs to a record that is not a
    draft. *)
Definition history_of_published (s : db) : Prop :=
  Forall (fun h => exists r, records s !! history_record_id h = Some r
                             /\ status r <> "draft") (status_history s).

(** The fields of a record that only its owner can write, through
    [update_record]. *)
Definition same_content (r r' : RecordRow) : Prop :=
  r_type r' = r_type r /\ title r' = title r /\ description r' = description r
  /\ latitude r' = latitude r /\ longitude r' = longitude r
  /\ location_name r' = location_name r /\ urgency_level r' = urgency_level r
  /\ normal_user_id r' = normal_user_id r /\ is_anonymous r' = is_anonymous r
  /\ created_at r' = created_at r.

(** The history entries of record [id], oldest first. *)
Definition history_of (s : db) (id : Z) : list StatusHistory :=
  filter (fun h => history_record_id h = id) (status_history s).

(** Each entry starts from the status that the entry before it reached. *)
Fixpoint chained (l : list StatusHistory) : Prop :=
  match l with
  | h1 :: l' =>
      match l' with
      | h2 :: _ => old_status h2 = Some (new_status h1)
      | [] => True
      end /\ chained l'
  | [] => True
  end.

(** The history of every record is a chain that ends at the record's
    status. *)
Definition history_coherent (s : db) : Prop :=
  map_Forall (fun id r =>
    chained (history_of s id)
    /\ forall h, last (history_of s id) = Some h -> new_status h = status r)
    (records s).

(** ** The owner and administrator list views ([get_my_records],
    [get_all_records]) *)

(** [order_by(Record.created_at.desc())] *)
Definition created_order (a b : Z * RecordRow) : Prop :=
  created_at b.2 <= created_at a.2.

#[global] Instance created_order_dec : RelDecision created_order.
Proof. intros a b. unfold created_order. apply _. Defined.

Definition get_my_records (s : db) (ident : identity) (args : gmap string string)
    : response :=
  if negb (String.eqb (ident_role ident) "user") then
    make_response (Error "Only users can view their records") 403
  else
    let '(page, per_page) := get_pagination_params args in
    let status_filter := args !! "status" in
    let type_filter := args !! "type" in
    let search_term := strip (default "" (args !! "search")) in
    let query :=
      select (fun r =>
        bool_decide (normal_user_id r = Some (ident_id ident))
        && matches_filter status_filter (JStr (status r))
        && matches_filter type_filter (r_type r)
        && matches_search search_term r) (records s) in
    let query := merge_sort created_order query in
    let '(items, total, pages) := paginate page per_page query in
    make_response
      (RecordList ((fun kr => to_dict s kr.1 kr.2) <$> items)
         page per_page total pages
         (bool_decide (page < pages)) (bool_decide (1 < page)))
      200.



End Handlers.

(** * Properties *)

(** ** Tables *)

Lemma next_id_above {A} (m : gmap Z A) k :
  is_Some (m !! k) -> k < next_id m.
Proof.
  unfold next_id.
  induction m as [|i x m Hi Hfold IH] using map_first_key_ind.
  - intros [? H]. rewrite lookup_empty in H. discriminate.
  - rewrite map_fold_insert_first_key by assumption.
    intros Hk. destruct (decide (i = k)) as [->|Hne].
    + lia.
    + rewrite lookup_insert_ne in Hk by assumption. specialize (IH Hk). lia.
Qed.

Lemma next_id_fresh {A} (m : gmap Z A) : m !! next_id m = None.
Proof.
  destruct (m !! next_id m) eqn:E; [|reflexivity].
  assert (next_id m < next_id m) by (apply next_id_above; eauto). lia.
Qed.

Lemma elem_of_select {A} (P : A -> bool) (m : gmap Z A) k v :
  (k, v) ∈ select P m <-> m !! k = Some v /\ P v = true.
Proof.
  unfold select. rewrite merge_sort_Permutation.
  rewrite list_elem_of_filter, elem_of_map_to_list. simpl. tauto.
Qed.

Lemma first_Some {A} (P : A -> bool) (m : gmap Z A) k v :
  first P m = Some (k, v) -> m !! k = Some v /\ P v = true.
Proof.
  unfold first. intros H. apply elem_of_select.
  destruct (select P m); simplify_eq/=. left.
Qed.

Lemma first_None {A} (P : A -> bool) (m : gmap Z A) k v :
  first P m = None -> m !! k = Some v -> P v = false.
Proof.
  unfold first. intros H Hk. destruct (P v) eqn:HP; [|reflexivity].
  assert ((k, v) ∈ select P m) as Hin by (apply elem_of_select; auto).
  destruct (select P m); [inversion Hin | discriminate].
Qed.

Lemma count_insert_other {A} (P : A -> bool) (m : gmap Z A) k v :
  P v = false ->
  (forall v0, m !! k = Some v0 -> P v0 = false) ->
  count P (<[k := v]> m) = count P m.
Proof.
  intros Hv Hold. unfold count. f_equal. f_equal.
  rewrite map_filter_insert_False by (simpl; congruence).
  rewrite map_filter_delete. apply delete_id.
  apply map_lookup_filter_None. right. intros v0 Hv0. simpl.
  rewrite (Hold v0 Hv0). discriminate.
Qed.

Lemma count_delete_other {A} (P : A -> bool) (m : gmap Z A) k :
  (forall v0, m !! k = Some v0 -> P v0 = false) ->
  count P (delete k m) = count P m.
Proof.
  intros Hold. unfold count. f_equal. f_equal.
  rewrite map_filter_delete. apply delete_id.
  apply map_lookup_filter_None. right. intros v0 Hv0. simpl.
  rewrite (Hold v0 Hv0). discriminate.
Qed.


(** ** Pagination *)




Example py_int_forms :
  py_int "500" = Some 500 /\ py_int " -12 " = Some (-12) /\
  py_int "1_000" = Some 1000 /\ py_int "abc" = None /\ py_int "" = None /\
  py_int "1__0" = None /\ py_int "+7" = Some 7 /\ py_int "12_" = None.
Proof. repeat split; reflexivity. Qed.

Example pagination_examples :
  get_pagination_params {[ "page" := "0" ]} = (1, 10) /\
  get_pagination_params {[ "page" := "3"; "per_page" := "25" ]} = (3, 25) /\
  get_pagination_params {[ "page" := "3"; "per_page" := "0" ]} = (3, 10) /\
  get_pagination_params {[ "page" := "3"; "per_page" := "abc" ]} = (1, 10).
Proof. repeat split; vm_compute; reflexivity. Qed.


(** ** Voting *)

Lemma vote_of_true record_id uid v :
  vote_of record_id uid v = true <-> vote_record_id v = record_id /\ user_id v = uid.
Proof. unfold vote_of. rewrite andb_true_iff, !Z.eqb_eq. tauto. Qed.

Lemma votes_on_false record_id id v :
  vote_record_id v = record_id -> id <> record_id -> votes_on id v = false.
Proof. intros <- Hne. unfold votes_on. apply Z.eqb_neq. congruence. Qed.

Lemma update_vote_count_votes s rid : votes (update_vote_count s rid).1 = votes s.
Proof. unfold update_vote_count. destruct (records s !! rid); reflexivity. Qed.

(** After [update_vote_count] the addressed record, if there is one,
    carries the number of its vote rows. *)
Lemma update_vote_count_exact s rid r :
  records (update_vote_count s rid).1 !! rid = Some r ->
  vote_count r = count (votes_on rid) (votes s).
Proof.
  unfold update_vote_count. destruct (records s !! rid) as [record|] eqn:E; simpl.
  - rewrite lookup_insert_eq. intros [= <-]. reflexivity.
  - congruence.
Qed.

Lemma update_vote_count_consistent s rid :
  (forall id r, id <> rid -> records s !! id = Some r ->
     vote_count r = count (votes_on id) (votes s)) ->
  vote_count_consistent (update_vote_count s rid).1.
Proof.
  intros H id r Hr. rewrite update_vote_count_votes.
  destruct (decide (id = rid)) as [->|Hne].
  - apply update_vote_count_exact. exact Hr.
  - apply H; [exact Hne|]. revert Hr. unfold update_vote_count.
    destruct (records s !! rid); simpl; [|tauto].
    rewrite lookup_insert_ne by congruence. tauto.
Qed.

Lemma upsert_vote_records now s rid uid vt :
  records (upsert_vote now s rid uid vt).1 = records s.
Proof. unfold upsert_vote. repeat case_match; reflexivity. Qed.

Lemma upsert_vote_count_other now s rid uid vt id :
  id <> rid ->
  count (votes_on id) (votes (upsert_vote now s rid uid vt).1)
  = count (votes_on id) (votes s).
Proof.
  intros Hne. unfold upsert_vote.
  destruct (first _ (votes s)) as [[vid v]|] eqn:E; simpl.
  - apply first_Some in E as [Hv Hof]. apply vote_of_true in Hof as [Hr _].
    apply count_insert_other.
    + apply (votes_on_false rid); [exact Hr|exact Hne].
    + intros v0 Hv0. rewrite Hv in Hv0. injection Hv0 as <-.
      apply (votes_on_false rid); [exact Hr|exact Hne].
  - apply count_insert_other.
    + apply (votes_on_false rid); [reflexivity|exact Hne].
    + intros v0. rewrite next_id_fresh. discriminate.
Qed.

(** What a vote request can do to the database. *)
Lemma vote_record_step now s ident rid data s' resp :
  vote_record now s ident rid data = (s', resp) ->
  (s' = s /\ code resp <> 200)
  \/ (code resp = 200 /\ exists vt,
        dict_get_default data "vote_type" (JStr "support") = JStr vt
        /\ vt ∈ vote_types
        /\ is_Some (records s !! rid)
        /\ s' = (update_vote_count (upsert_vote now s rid (ident_id ident) vt).1 rid).1).
Proof.
  unfold vote_record, get_or_404. intros H.
  repeat (case_match; simplify_eq/=); try (left; split; [reflexivity|discriminate]).
  right. split; [reflexivity|]. eexists. repeat split; eauto.
  - match goal with
    | Hn : negb (bool_decide _) = false |- _ =>
        apply negb_false_iff, bool_decide_eq_true in Hn; exact Hn
    end.
  - match goal with
    | Hu : upsert_vote _ _ _ _ _ = _, Hc : update_vote_count _ _ = _ |- _ =>
        rewrite Hu; simpl; rewrite Hc; reflexivity
    end.
Qed.

Lemma remove_vote_step s ident rid s' resp :
  remove_vote s ident rid = (s', resp) ->
  (s' = s /\ code resp <> 200)
  \/ (code resp = 200 /\ exists vid v,
        votes s !! vid = Some v
        /\ vote_record_id v = rid /\ user_id v = ident_id ident
        /\ s' = (update_vote_count (set_votes s (delete vid (votes s))) rid).1).
Proof.
  unfold remove_vote. intros H.
  repeat (case_match; simplify_eq/=); try (left; split; [reflexivity|discriminate]).
  right. split; [reflexivity|].
  match goal with
  | Hf : first _ _ = Some _ |- _ => apply first_Some in Hf as [Hv Hof]
  end.
  apply vote_of_true in Hof as [Hr Hu].
  eexists _, _. repeat split; eauto.
  match goal with
  | Hc : update_vote_count _ _ = _ |- _ => rewrite Hc; reflexivity
  end.
Qed.

Lemma run_vote_op_consistent s op :
  vote_count_consistent s -> vote_count_consistent (run_vote_op s op).
Proof.
  intros Hs. destruct op as [now ident rid data|ident rid]; simpl.
  - destruct (vote_record now s ident rid data) as [s' resp] eqn:E. simpl.
    apply vote_record_step in E as [[-> _]|[_ (vt & _ & _ & _ & ->)]]; [exact Hs|].
    apply update_vote_count_consistent. intros id r Hne Hr.
    rewrite upsert_vote_records in Hr.
    rewrite upsert_vote_count_other by exact Hne. apply Hs. exact Hr.
  - destruct (remove_vote s ident rid) as [s' resp] eqn:E. simpl.
    apply remove_vote_step in E as [[-> _]|[_ (vid & v & Hv & Hr & _ & ->)]]; [exact Hs|].
    apply update_vote_count_consistent. intros id r Hne Hrec. simpl in *.
    rewrite count_delete_other; [apply Hs; exact Hrec|].
    intros v0 Hv0. rewrite Hv in Hv0. injection Hv0 as <-.
    apply (votes_on_false rid); [exact Hr|exact Hne].
Qed.

(** C2: if every record's cached [vote_count] equals the number of vote
    rows that reference the record, then so it does after any sequence of
    cast and retract requests (accepted or refused, by any users, on any
    records), whatever the vote types. *)
Theorem vote_count_matches_rows ops s :
  vote_count_consistent s -> vote_count_consistent (run_vote_ops ops s).
Proof.
  unfold run_vote_ops. revert s.
  induction ops as [|op ops IH]; intros s Hs; simpl; [exact Hs|].
  apply IH, run_vote_op_consistent, Hs.
Qed.

Lemma upsert_vote_spec now s rid uid vt :
  exists k v,
    votes (upsert_vote now s rid uid vt).1 = <[k := v]> (votes s)
    /\ vote_record_id v = rid /\ user_id v = uid /\ vote_type v = vt
    /\ ((exists v0, votes s !! k = Some v0
                    /\ vote_record_id v0 = rid /\ user_id v0 = uid)
        \/ (votes s !! k = None
            /\ forall k0 v0, votes s !! k0 = Some v0 ->
                 ~ (vote_record_id v0 = rid /\ user_id v0 = uid))).
Proof.
  unfold upsert_vote.
  destruct (first _ (votes s)) as [[vid v]|] eqn:E; simpl.
  - apply first_Some in E as [Hv Hof]. apply vote_of_true in Hof as [Hr Hu].
    eexists _, _. split; [reflexivity|]. simpl. repeat split; try assumption.
    left. eauto.
  - eexists _, _. split; [reflexivity|]. simpl. repeat split.
    right. split; [apply next_id_fresh|].
    intros k0 v0 Hv0 Hpair. apply vote_of_true in Hpair.
    rewrite (first_None _ _ _ _ E Hv0) in Hpair. discriminate.
Qed.

Lemma one_vote_per_pair_delete s vid :
  one_vote_per_pair s -> one_vote_per_pair (set_votes s (delete vid (votes s))).
Proof.
  intros H k1 v1 H1 k2 v2 H2. simpl in *.
  apply lookup_delete_Some in H1 as [_ H1]. apply lookup_delete_Some in H2 as [_ H2].
  exact (H k1 v1 H1 k2 v2 H2).
Qed.

Lemma one_vote_per_pair_votes s s' :
  votes s' = votes s -> one_vote_per_pair s -> one_vote_per_pair s'.
Proof. unfold one_vote_per_pair. intros ->. tauto. Qed.

Lemma upsert_vote_one_per_pair now s rid uid vt :
  one_vote_per_pair s -> one_vote_per_pair (upsert_vote now s rid uid vt).1.
Proof.
  intros H.
  destruct (upsert_vote_spec now s rid uid vt)
    as (k & v & Hvotes & Hr & Hu & _ & Hcase).
  unfold one_vote_per_pair. rewrite Hvotes.
  intros k1 v1 H1 k2 v2 H2 Hsr Hsu.
  destruct (decide (k1 = k)) as [->|N1], (decide (k2 = k)) as [->|N2];
    [reflexivity| | |].
  - rewrite lookup_insert_eq in H1. injection H1 as <-.
    rewrite lookup_insert_ne in H2 by congruence.
    destruct Hcase as [(v0 & Hv0 & Hr0 & Hu0)|[_ Hnone]].
    + apply (H k v0 Hv0 k2 v2 H2); congruence.
    + exfalso. apply (Hnone k2 v2 H2). split; congruence.
  - rewrite lookup_insert_eq in H2. injection H2 as <-.
    rewrite lookup_insert_ne in H1 by congruence.
    destruct Hcase as [(v0 & Hv0 & Hr0 & Hu0)|[_ Hnone]].
    + apply (H k1 v1 H1 k v0 Hv0); congruence.
    + exfalso. apply (Hnone k1 v1 H1). split; congruence.
  - rewrite lookup_insert_ne in H1 by congruence.
    rewrite lookup_insert_ne in H2 by congruence.
    exact (H k1 v1 H1 k2 v2 H2 Hsr Hsu).
Qed.

Lemma run_vote_op_one_per_pair s op :
  one_vote_per_pair s -> one_vote_per_pair (run_vote_op s op).
Proof.
  intros Hs. destruct op as [now ident rid data|ident rid]; simpl.
  - destruct (vote_record now s ident rid data) as [s' resp] eqn:E. simpl.
    apply vote_record_step in E as [[-> _]|[_ (vt & _ & _ & _ & ->)]]; [exact Hs|].
    eapply one_vote_per_pair_votes; [apply update_vote_count_votes|].
    apply upsert_vote_one_per_pair, Hs.
  - destruct (remove_vote s ident rid) as [s' resp] eqn:E. simpl.
    apply remove_vote_step in E as [[-> _]|[_ (vid & v & _ & _ & _ & ->)]]; [exact Hs|].
    eapply one_vote_per_pair_votes; [apply update_vote_count_votes|].
    apply one_vote_per_pair_delete, Hs.
Qed.

(** Casting and retracting never produce a second row for a pair. *)
Lemma run_vote_ops_one_per_pair ops s :
  one_vote_per_pair s -> one_vote_per_pair (run_vote_ops ops s).
Proof.
  unfold run_vote_ops. revert s.
  induction ops as [|op ops IH]; intros s Hs; simpl; [exact Hs|].
  apply IH, run_vote_op_one_per_pair, Hs.
Qed.

(** C3: on a vote table with at most one row per (record, user) pair, an
    accepted cast leaves exactly one row for the caller's pair, carrying the
    vote type of the request, and the table still has at most one row per
    pair. If the caller had a row already, that row is the one overwritten:
    it keeps its primary key and the table has the same keys as before, so
    no row is created. *)
Theorem vote_record_single_row now s ident rid data s' resp :
  one_vote_per_pair s ->
  vote_record now s ident rid data = (s', resp) ->
  code resp = 200 ->
  one_vote_per_pair s'
  /\ exists k v,
       votes s' !! k = Some v
       /\ vote_record_id v = rid /\ user_id v = ident_id ident
       /\ JStr (vote_type v) = dict_get_default data "vote_type" (JStr "support")
       /\ (forall k' v', votes s' !! k' = Some v' ->
             vote_record_id v' = rid -> user_id v' = ident_id ident -> k' = k)
       /\ (forall k0 v0, votes s !! k0 = Some v0 ->
             vote_record_id v0 = rid -> user_id v0 = ident_id ident ->
             k0 = k /\ dom (votes s') = dom (votes s)
             /\ size (votes s') = size (votes s)).
Proof.
  intros Hs E Hcode.
  apply vote_record_step in E as [[_ Hn]|[_ (vt & Hvt & _ & _ & ->)]];
    [contradiction|].
  assert (Hs1 : one_vote_per_pair (upsert_vote now s rid (ident_id ident) vt).1)
    by (apply upsert_vote_one_per_pair, Hs).
  rewrite update_vote_count_votes.
  split.
  { eapply one_vote_per_pair_votes; [apply update_vote_count_votes|exact Hs1]. }
  destruct (upsert_vote_spec now s rid (ident_id ident) vt)
    as (k & v & Hvotes & Hr & Hu & Ht & Hcase).
  assert (Hk : votes (upsert_vote now s rid (ident_id ident) vt).1 !! k = Some v)
    by (rewrite Hvotes; apply lookup_insert_eq).
  exists k, v.
  split; [exact Hk|]. split; [exact Hr|]. split; [exact Hu|].
  split; [rewrite Hvt, Ht; reflexivity|]. split.
  - intros k' v' Hk' Hr' Hu'. apply (Hs1 k' v' Hk' k v Hk); congruence.
  - intros k0 v0 H0 Hr0 Hu0.
    destruct Hcase as [(v1 & Hv1 & Hr1 & Hu1)|[_ Hnone]];
      [|exfalso; apply (Hnone k0 v0 H0); split; assumption].
    rewrite Hvotes. split; [|split].
    + apply (Hs k0 v0 H0 k v1 Hv1); congruence.
    + apply dom_insert_lookup_L. eauto.
    + apply map_size_insert_Some. eauto.
Qed.

(** ** Deleting a record *)

Lemma delete_record_absent s ident id :
  records s !! id = None ->
  delete_record s ident id
  = (s, make_response (Error "Failed to delete record") 500).
Proof. intros H. unfold delete_record, get_or_404. rewrite H. reflexivity. Qed.

Lemma delete_record_not_owner s ident id record :
  records s !! id = Some record -> not_owner ident record = true ->
  delete_record s ident id = (s, make_response (Error "Unauthorized") 403).
Proof.
  intros H Hn. unfold delete_record, get_or_404. rewrite H. simpl.
  rewrite Hn. reflexivity.
Qed.

Lemma delete_record_not_draft s ident id record :
  records s !! id = Some record -> not_owner ident record = false ->
  status record <> "draft" ->
  delete_record s ident id
  = (s, make_response (Error "Only draft records can be deleted") 400).
Proof.
  intros H Hn Hd. unfold delete_record, get_or_404. rewrite H. simpl.
  rewrite Hn. apply String.eqb_neq in Hd. rewrite Hd. reflexivity.
Qed.

Lemma delete_record_refused s ident id s' resp :
  delete_record s ident id = (s', resp) -> code resp <> 200 -> s' = s.
Proof.
  unfold delete_record, get_or_404. intros H Hc.
  repeat (case_match; simplify_eq/=); congruence.
Qed.

Lemma dict_get_default_present (data : gmap string json) k v dflt :
  data !! k = Some v -> dict_get_default data k dflt = v.
Proof. unfold dict_get_default. intros ->. reflexivity. Qed.


(** ** Counting and the tables, continued *)

Lemma count_none {A} (P : A -> bool) (m : gmap Z A) :
  (forall k v, m !! k = Some v -> P v = false) -> count P m = 0.
Proof.
  intros H. unfold count.
  replace (filter (fun kv : Z * A => P kv.2 = true) m) with (∅ : gmap Z A);
    [reflexivity|].
  symmetry. apply map_empty_filter. intros k v Hk. simpl.
  rewrite (H k v Hk). discriminate.
Qed.

Lemma count_filter {A} (P : A -> bool) (Q : Z * A -> Prop)
    `{forall x, Decision (Q x)} (m : gmap Z A) :
  (forall k v, m !! k = Some v -> P v = true -> Q (k, v)) ->
  count P (filter Q m) = count P m.
Proof.
  intros HPQ. unfold count. f_equal. f_equal.
  apply map_filter_filter_l. intros k v Hk HP. apply (HPQ k v Hk HP).
Qed.

Lemma update_vote_count_lookup s rid id :
  records (update_vote_count s rid).1 !! id
  = if decide (id = rid)
    then (fun r => set_vote_count r (count (votes_on rid) (votes s))) <$> records s !! rid
    else records s !! id.
Proof.
  unfold update_vote_count. destruct (records s !! rid) as [r|] eqn:E; simpl.
  - case_decide as Hd; [subst; rewrite lookup_insert_eq; reflexivity|].
    rewrite lookup_insert_ne by congruence. reflexivity.
  - case_decide as Hd; [subst; exact E|reflexivity].
Qed.

Lemma update_vote_count_frame s rid :
  media (update_vote_count s rid).1 = media s
  /\ status_history (update_vote_count s rid).1 = status_history s
  /\ normal_users (update_vote_count s rid).1 = normal_users s.
Proof. unfold update_vote_count. destruct (records s !! rid); repeat split. Qed.

(** [update_vote_count] rewrites the count of a record and nothing else
    of it. *)
Lemma update_vote_count_keeps s rid id r :
  records s !! id = Some r ->
  exists r', records (update_vote_count s rid).1 !! id = Some r'
             /\ status r' = status r /\ same_content r r'
             /\ assigned_admin_id r' = assigned_admin_id r
             /\ (id <> rid -> r' = r).
Proof.
  intros Hr. rewrite update_vote_count_lookup. case_decide as Hd.
  - subst. rewrite Hr. simpl. eexists. split; [reflexivity|].
    repeat split. congruence.
  - exists r. repeat split. exact Hr.
Qed.

Lemma upsert_vote_frame now s rid uid vt :
  media (upsert_vote now s rid uid vt).1 = media s
  /\ status_history (upsert_vote now s rid uid vt).1 = status_history s
  /\ normal_users (upsert_vote now s rid uid vt).1 = normal_users s.
Proof. unfold upsert_vote. repeat case_match; repeat split. Qed.

Lemma filter_all {A} (P : A -> Prop) `{forall x, Decision (P x)} (l : list A) :
  Forall P l -> filter P l = l.
Proof.
  induction 1 as [|x l Hx _ IH]; [reflexivity|].
  rewrite filter_cons_True by exact Hx. rewrite IH. reflexivity.
Qed.

Lemma is_Some_insert_keep {A} (m : gmap Z A) i x k :
  is_Some (m !! k) -> is_Some (<[i := x]> m !! k).
Proof.
  intros Hk. destruct (decide (i = k)) as [->|Hne].
  - rewrite lookup_insert_eq. eauto.
  - rewrite lookup_insert_ne by exact Hne. exact Hk.
Qed.

Lemma chained_snoc l h :
  chained l ->
  (forall h0, last l = Some h0 -> old_status h = Some (new_status h0)) ->
  chained (l ++ [h]).
Proof.
  induction l as [|h1 l IH]; intros Hc Hl; simpl; [tauto|].
  destruct Hc as [Hh Hc]. destruct l as [|h2 l].
  - simpl. split; [|tauto]. apply Hl. reflexivity.
  - split; [exact Hh|]. apply IH; [exact Hc|].
    intros h0 H0. apply Hl. exact H0.
Qed.

(** ** Voting, continued *)

Lemma first_None_intro {A} (P : A -> bool) (m : gmap Z A) :
  (forall k v, m !! k = Some v -> P v = false) -> first P m = None.
Proof.
  intros H. destruct (first P m) as [[k v]|] eqn:E; [|reflexivity].
  apply first_Some in E as [Hk HP]. rewrite (H k v Hk) in HP. discriminate.
Qed.


Lemma count_insert_new {A} (P : A -> bool) (m : gmap Z A) k v :
  m !! k = None -> P v = true -> count P (<[k := v]> m) = count P m + 1.
Proof.
  intros Hk HP. unfold count.
  rewrite map_filter_insert_True by exact HP.
  rewrite map_size_insert_None; [lia|].
  apply map_lookup_filter_None. left. exact Hk.
Qed.

Lemma count_insert_same {A} (P : A -> bool) (m : gmap Z A) k v v' :
  m !! k = Some v -> P v = true -> P v' = true ->
  count P (<[k := v']> m) = count P m.
Proof.
  intros Hk HP HP'. unfold count.
  rewrite map_filter_insert_True by exact HP'.
  rewrite map_size_insert_Some; [reflexivity|].
  exists v. apply map_lookup_filter_Some. split; assumption.
Qed.

Lemma count_delete_one {A} (P : A -> bool) (m : gmap Z A) k v :
  m !! k = Some v -> P v = true -> count P (delete k m) = count P m - 1.
Proof.
  intros Hk HP. unfold count. rewrite map_filter_delete.
  rewrite map_size_delete_Some.
  - assert (size (filter (fun kv : Z * A => P kv.2 = true) m) <> 0%nat); [|lia].
    apply map_size_ne_0_lookup. exists k, v.
    apply map_lookup_filter_Some. split; assumption.
  - exists v. apply map_lookup_filter_Some. split; assumption.
Qed.






(** X11: an accepted cast reports the live count. The [vote_count] of the
    response is the number of vote rows of the record after the request, it
    is also the count stored on the record, and it is the count before plus
    one if the caller had no vote on the record and the count before if the
    caller only changed the type of a vote. *)
Theorem vote_record_reports_count now s ident rid data s' resp :
  vote_record now s ident rid data = (s', resp) ->
  code resp = 200 ->
  exists message vt,
    resp_body resp = VoteResult message (count (votes_on rid) (votes s')) (Some vt)
    /\ vote_count <$> records s' !! rid = Some (count (votes_on rid) (votes s'))
    /\ count (votes_on rid) (votes s')
       = count (votes_on rid) (votes s)
         + match first (vote_of rid (ident_id ident)) (votes s) with
           | Some _ => 0
           | None => 1
           end.
Proof.
  unfold vote_record, get_or_404, upsert_vote. intros H Hcode.
  destruct (negb (ident_role ident =? "user")%string); [simplify_eq; discriminate|].
  destruct (dict_get_default data "vote_type" (JStr "support"));
    try (simplify_eq; discriminate).
  destruct (negb (bool_decide (s0 ∈ vote_types))); [simplify_eq; discriminate|].
  destruct (records s !! rid) as [r|] eqn:Hr; simpl in H; [|simplify_eq; discriminate].
  destruct (first (vote_of rid (ident_id ident)) (votes s)) as [[vid v]|] eqn:Hf;
    unfold update_vote_count in H; simpl in H; rewrite Hr in H; simpl in H;
    injection H as <- <-; simpl; eexists _, _;
    (split; [reflexivity|]); rewrite lookup_insert_eq; (split; [reflexivity|]).
  - apply first_Some in Hf as [Hv Hof]. apply vote_of_true in Hof as [Hvr _].
    rewrite Z.add_0_r. apply (count_insert_same _ _ _ v); [exact Hv| |];
      apply Z.eqb_eq; [exact Hvr|exact Hvr].
  - apply count_insert_new; [apply next_id_fresh|]. apply Z.eqb_eq. reflexivity.
Qed.

(** X12: an accepted retraction removes exactly one row: the response
    carries the number of vote rows of the record after the request, which
    is the number before minus one, and a stored record carries the same
    count. *)
Theorem remove_vote_reports_count s ident rid s' resp :
  remove_vote s ident rid = (s', resp) ->
  code resp = 200 ->
  resp_body resp
  = VoteResult "Vote removed successfully" (count (votes_on rid) (votes s')) None
  /\ count (votes_on rid) (votes s') = count (votes_on rid) (votes s) - 1
  /\ size (votes s') = pred (size (votes s))
  /\ (is_Some (records s !! rid) ->
      vote_count <$> records s' !! rid = Some (count (votes_on rid) (votes s'))).
Proof.
  unfold remove_vote. intros H Hcode.
  destruct (negb (ident_role ident =? "user")%string); [simplify_eq; discriminate|].
  destruct (first (vote_of rid (ident_id ident)) (votes s)) as [[vid v]|] eqn:Hf;
    [|simplify_eq; discriminate].
  apply first_Some in Hf as [Hv Hof]. apply vote_of_true in Hof as [Hvr _].
  unfold update_vote_count in H. simpl in H.
  destruct (records s !! rid) as [r|] eqn:Hr; simpl in H; injection H as <- <-; simpl.
  - split; [reflexivity|]. split; [|split].
    + apply (count_delete_one _ _ _ v); [exact Hv|]. apply Z.eqb_eq. exact Hvr.
    + apply map_size_delete_Some. eauto.
    + intros _. rewrite lookup_insert_eq. reflexivity.
  - split; [reflexivity|]. split; [|split].
    + apply (count_delete_one _ _ _ v); [exact Hv|]. apply Z.eqb_eq. exact Hvr.
    + apply map_size_delete_Some. eauto.
    + intros [? ?]. discriminate.
Qed.

(** X13: a vote cannot be retracted twice. On a table with at most one
    row per pair, after an accepted retraction the same request is answered
    404 and changes nothing. *)
Theorem remove_vote_twice s ident rid s' resp :
  one_vote_per_pair s ->
  remove_vote s ident rid = (s', resp) ->
  code resp = 200 ->
  remove_vote s' ident rid = (s', make_response (Error "No vote found to remove") 404).
Proof.
  intros Huniq H Hcode.
  assert (Hrole : ident_role ident = "user").
  { unfold remove_vote in H.
    destruct (String.eqb_spec (ident_role ident) "user"); [assumption|].
    simpl in H. injection H as <- <-. discriminate. }
  apply remove_vote_step in H as [[_ Hn]|[_ (vid & v & Hv & Hvr & Hvu & ->)]];
    [contradiction|].
  unfold remove_vote. rewrite Hrole. simpl.
  rewrite update_vote_count_votes. simpl.
  rewrite first_None_intro; [reflexivity|].
  intros k v' Hk. apply lookup_delete_Some in Hk as [Hne Hk].
  destruct (vote_of rid (ident_id ident) v') eqn:Hof; [|reflexivity].
  apply vote_of_true in Hof as [Hr' Hu']. exfalso. apply Hne.
  symmetry. apply (Huniq k v' Hk vid v Hv); congruence.
Qed.



(** ** Ownership *)

Lemma not_owner_false ident r :
  not_owner ident r = false <->
  ident_role ident = "user" /\ normal_user_id r = Some (ident_id ident).
Proof.
  unfold not_owner. rewrite orb_false_iff, negb_false_iff, String.eqb_eq.
  rewrite bool_decide_eq_false. split.
  - intros [Hr Ho]. split; [exact Hr|].
    destruct (decide (normal_user_id r = Some (ident_id ident))); [assumption|].
    contradiction.
  - intros [Hr Ho]. split; [exact Hr|]. intros Hn. contradiction.
Qed.

(** X15: an accepted delete takes the record and everything that hangs on
    it, and nothing else. It is accepted only from the owning user and only
    for a draft; afterwards the record is gone, the media, vote and history
    rows that remain are exactly the rows of the other records, and the
    other records and the users are untouched. *)
Theorem delete_record_cascades s ident id s' resp :
  delete_record s ident id = (s', resp) ->
  code resp = 200 ->
  (exists r, records s !! id = Some r /\ status r = "draft"
             /\ ident_role ident = "user"
             /\ normal_user_id r = Some (ident_id ident))
  /\ records s' !! id = None
  /\ (forall id', id' <> id -> records s' !! id' = records s !! id')
  /\ (forall k m, media s' !! k = Some m <->
                  media s !! k = Some m /\ media_record_id m <> id)
  /\ (forall k v, votes s' !! k = Some v <->
                  votes s !! k = Some v /\ vote_record_id v <> id)
  /\ (forall h, h ∈ status_history s' <->
                h ∈ status_history s /\ history_record_id h <> id)
  /\ normal_users s' = normal_users s.
Proof.
  unfold delete_record, get_or_404. intros H Hcode.
  destruct (records s !! id) as [r|] eqn:Hr; simpl in H;
    [|injection H as <- <-; discriminate].
  destruct (not_owner ident r) eqn:Hn; [injection H as <- <-; discriminate|].
  destruct (String.eqb_spec (status r) "draft") as [Hd|Hd]; simpl in H;
    injection H as <- <-; [|discriminate].
  apply not_owner_false in Hn as [Hrole Hown].
  split; [exists r; repeat split; assumption|]. simpl.
  split; [apply lookup_delete_eq|].
  split; [intros id' Hne; apply lookup_delete_ne; congruence|].
  split; [intros k m; rewrite map_lookup_filter_Some; reflexivity|].
  split; [intros k v; rewrite map_lookup_filter_Some; reflexivity|].
  split; [intros h; rewrite list_elem_of_filter; tauto|reflexivity].
Qed.

(** ** Lists and pages *)

Lemma StronglySorted_sublist {A} (R : relation A) (l1 l2 : list A) :
  l1 `sublist_of` l2 -> StronglySorted R l2 -> StronglySorted R l1.
Proof.
  induction 1 as [|x l1 l2 Hsub IH|x l1 l2 Hsub IH]; intros Hs.
  - constructor.
  - apply StronglySorted_inv in Hs as [Hs Hx]. constructor; [apply IH; exact Hs|].
    rewrite Forall_forall in *. intros y Hy. apply Hx.
    eapply elem_of_sublist; [|exact Hsub]. exact Hy.
  - apply StronglySorted_inv in Hs as [Hs _]. apply IH. exact Hs.
Qed.

Lemma paginate_sublist {A} page per_page (rows : list A) :
  (paginate page per_page rows).1.1 `sublist_of` rows.
Proof.
  unfold paginate. simpl. etransitivity; [apply sublist_take|apply sublist_drop].
Qed.


Lemma select_spec {A} (P : A -> bool) (m : gmap Z A) :
  NoDup (select P m).*1
  /\ Forall (fun kv => m !! kv.1 = Some kv.2 /\ P kv.2 = true) (select P m).
Proof.
  split.
  - unfold select. rewrite merge_sort_Permutation.
    apply (sublist_NoDup _ (map_to_list m).*1); [apply NoDup_fst_map_to_list|].
    apply fmap_sublist, sublist_filter.
  - apply Forall_forall. intros [k v] Hin. apply elem_of_select in Hin. exact Hin.
Qed.

Lemma public_order_total : Total public_order.
Proof. intros a b. unfold public_order. lia. Qed.

Lemma public_order_trans : Transitive public_order.
Proof. intros a b c. unfold public_order. lia. Qed.

Lemma created_order_total : Total created_order.
Proof. intros a b. unfold created_order. lia. Qed.

Lemma created_order_trans : Transitive created_order.
Proof. intros a b c. unfold created_order. lia. Qed.

(** A page of a sorted selection: distinct rows of the table that pass
    the test, in order. *)
Lemma page_of_selection {A} (R : relation (Z * A)) `{!RelDecision R}
    (P : A -> bool) (m : gmap Z A) page per_page :
  Total R -> Transitive R ->
  let items := (paginate page per_page (merge_sort R (select P m))).1.1 in
  NoDup items.*1
  /\ Forall (fun kv => m !! kv.1 = Some kv.2 /\ P kv.2 = true) items
  /\ StronglySorted R items.
Proof.
  intros Htot Htr items.
  assert (Hsub : items `sublist_of` merge_sort R (select P m))
    by apply paginate_sublist.
  destruct (select_spec P m) as [Hnd Hall].
  split; [|split].
  - eapply sublist_NoDup; [|apply fmap_sublist; exact Hsub].
    rewrite merge_sort_Permutation. exact Hnd.
  - apply Forall_forall. intros kv Hin.
    assert (kv ∈ select P m) as Hin'.
    { rewrite <- (merge_sort_Permutation R). eapply elem_of_sublist; eassumption. }
    rewrite Forall_forall in Hall. apply Hall. exact Hin'.
  - eapply StronglySorted_sublist; [exact Hsub|].
    apply StronglySorted_merge_sort; assumption.
Qed.



(** ** Strings, continued *)



(** ** Lists *)


(** ** Validators *)

Lemma match_atom_spec set lo hi k s :
  match_atom set lo hi k s = true
  <-> exists w rest,
        s = w ++ rest /\ Forall (fun c => set c = true) w
        /\ (lo <= length w)%nat
        /\ match hi with Some h => (length w <= h)%nat | None => True end
        /\ k rest = true.
Proof.
  revert lo hi. induction s as [|c s IH]; intros lo hi.
  - simpl. rewrite orb_false_r. split.
    + destruct lo; [|discriminate]. intros Hk. exists [], [].
      repeat split; [constructor|simpl; lia|destruct hi; simpl; [lia|exact I]|exact Hk].
    + intros (w & rest & Hs & _ & Hlo & _ & Hk).
      symmetry in Hs. apply app_eq_nil in Hs as [-> ->].
      simpl in Hlo. destruct lo; [exact Hk|lia].
  - simpl. rewrite orb_true_iff. split.
    + intros [Hk|Hm].
      * destruct lo; [|discriminate]. exists [], (c :: s).
        repeat split; [constructor|simpl; lia|destruct hi; simpl; [lia|exact I]|exact Hk].
      * assert (Hc : set c = true /\ match_atom set (pred lo) (pred <$> hi) k s = true
                     /\ hi <> Some O).
        { destruct hi as [[|h]|]; [discriminate| |];
            apply andb_true_iff in Hm as [? ?]; repeat split; auto; discriminate. }
        destruct Hc as (Hc & Hr & Hhi).
        apply IH in Hr as (w & rest & -> & Hw & Hlo & Hh & Hk).
        exists (c :: w), rest. repeat split; [constructor; assumption|simpl; lia| |exact Hk].
        destruct hi as [[|h]|]; simpl in *; [congruence|lia|exact I].
    + intros (w & rest & Hs & Hw & Hlo & Hh & Hk).
      destruct w as [|c' w].
      * left. simpl in Hs, Hlo. subst rest. destruct lo; [exact Hk|lia].
      * right. simpl in Hs. injection Hs as <- ->.
        apply Forall_cons in Hw as [Hc Hw].
        assert (Hr : match_atom set (pred lo) (pred <$> hi) k (w ++ rest) = true).
        { apply IH. exists w, rest. repeat split; [assumption|simpl in Hlo; lia| |exact Hk].
          destruct hi as [h|]; simpl in *; [lia|exact I]. }
        destruct hi as [[|h]|]; simpl in Hh; [lia| |]; rewrite Hc, Hr; reflexivity.
Qed.

Lemma match_atoms_literal t k s :
  match_atoms (literal t) k s = true
  <-> exists rest, s = list_ascii_of_string t ++ rest /\ k rest = true.
Proof.
  unfold literal. revert s.
  induction (list_ascii_of_string t) as [|c l IH]; intros s; simpl.
  - split; [intros Hk; exists s; auto|intros (rest & -> & Hk); exact Hk].
  - rewrite match_atom_spec. split.
    + intros (w & rest & -> & Hw & Hlo & Hhi & Hk).
      destruct w as [|c' [|? ?]]; simpl in Hlo, Hhi; try lia.
      rewrite Forall_singleton in Hw. apply Ascii.eqb_eq in Hw as <-.
      apply IH in Hk as (rest' & -> & Hk). exists rest'. split; [reflexivity|exact Hk].
    + intros (rest & -> & Hk). exists [c], (l ++ rest).
      repeat split; [|simpl; lia|simpl; lia|].
      * apply Forall_singleton. apply Ascii.eqb_refl.
      * apply IH. exists rest. split; [reflexivity|exact Hk].
Qed.

Lemma match_atoms_cons a p k s :
  match_atoms (a :: p) k s
  = match_atom (chars a) (at_least a) (at_most a) (match_atoms p k) s.
Proof. reflexivity. Qed.

Lemma at_end_spec s : at_end s = true <-> s = [] \/ s = ["010"%char].
Proof.
  destruct s as [|c [|? ?]]; simpl.
  - split; [auto|reflexivity].
  - rewrite Ascii.eqb_eq. split; [intros ->; auto|intros [|[= ->]]; [discriminate|reflexivity]].
  - split; [discriminate|intros [|]; discriminate].
Qed.

Lemma list_ascii_of_string_app (a b : string) :
  list_ascii_of_string (a ++ b)%string = list_ascii_of_string a ++ list_ascii_of_string b.
Proof. induction a as [|c a IH]; simpl; [reflexivity|rewrite IH; reflexivity]. Qed.

Lemma list_ascii_of_string_nil (a : string) : list_ascii_of_string a = [] <-> a = "".
Proof. destruct a; simpl; split; intros; congruence. Qed.

(** X26: what [validate_email] accepts. A missing or empty address is
    refused; a string is accepted exactly when it is a nonempty run of
    letters, digits and the characters . _ % + - followed by the lower-case
    literal @gmail.com and nothing else, except that one newline after the
    literal is let through by the [$] of the pattern. *)
Theorem validate_email_accepts :
  (forall v, truthy v = false -> validate_email v = Some false)
  /\ (forall e,
        validate_email (JStr e) = Some true
        <-> exists local : string,
              local <> ""
              /\ Forall (fun c => local_part c = true) (list_ascii_of_string local)
              /\ (e = (local ++ "@gmail.com")%string
                  \/ e = (local ++ "@gmail.com" ++ String "010" "")%string)).
Proof.
  split.
  - intros v Hv. unfold validate_email. rewrite Hv. reflexivity.
  - intros e. unfold validate_email. cbn [truthy].
    destruct (String.eqb_spec e "") as [->|He]; cbn [negb].
    + split; [discriminate|].
      intros (local & Hl & _ & [H|H]); destruct local; try congruence; discriminate.
    + unfold re_match, gmail_pattern. rewrite match_atoms_cons.
      cbn [chars at_least at_most].
      pose proof (match_atoms_literal "@gmail.com" at_end) as Hlit.
      set (k := match_atoms (literal "@gmail.com") at_end) in *.
      split.
      * intros H. injection H as H.
        apply match_atom_spec in H as (w & rest & Hs & Hw & Hlo & _ & Hk).
        apply Hlit in Hk as (rest' & -> & Hend).
        exists (string_of_list_ascii w).
        rewrite list_ascii_of_string_of_list_ascii.
        split; [|split; [exact Hw|]].
        { intros Hn. apply (f_equal list_ascii_of_string) in Hn.
          rewrite list_ascii_of_string_of_list_ascii in Hn. subst w. simpl in Hlo. lia. }
        apply at_end_spec in Hend as [-> | ->]; [left|right];
          rewrite <- (string_of_list_ascii_of_string e), Hs; clear.
        -- rewrite app_nil_r.
           rewrite <- (string_of_list_ascii_of_string (_ ++ "@gmail.com")).
           rewrite list_ascii_of_string_app, list_ascii_of_string_of_list_ascii.
           reflexivity.
        -- rewrite <- (string_of_list_ascii_of_string (_ ++ "@gmail.com" ++ _)).
           rewrite list_ascii_of_string_app, list_ascii_of_string_of_list_ascii.
           reflexivity.
      * intros (local & Hl & Hw & He'). f_equal.
        apply match_atom_spec. exists (list_ascii_of_string local).
        destruct He' as [-> | ->]; rewrite list_ascii_of_string_app.
        -- exists (list_ascii_of_string "@gmail.com").
           split; [reflexivity|]. split; [exact Hw|].
           split; [destruct local; [congruence|simpl; lia]|]. split; [exact I|].
           apply Hlit. exists []. split; [symmetry; apply app_nil_r|reflexivity].
        -- exists (list_ascii_of_string ("@gmail.com" ++ String "010" "")).
           split; [reflexivity|]. split; [exact Hw|].
           split; [destruct local; [congruence|simpl; lia]|]. split; [exact I|].
           apply Hlit. exists ["010"%char]. split; reflexivity.
Qed.

Example validate_email_examples :
  validate_email (JStr "jane.doe+x@gmail.com") = Some true
  /\ validate_email (JStr "jane@Gmail.com") = Some false
  /\ validate_email (JStr "jane@gmail.com.ke") = Some false
  /\ validate_email (JStr "jane doe@gmail.com") = Some false
  /\ validate_email (JStr "@gmail.com") = Some false
  /\ validate_email (JStr ("jane@gmail.com" ++ String "010" "")) = Some true
  /\ validate_email (JInt 7) = None.
Proof. repeat split; vm_compute; reflexivity. Qed.

Lemma filter_taken_out (cs : ascii -> bool) (l : list ascii) :
  Forall (fun c => cs c = false) (List.filter (fun c => negb (cs c)) l).
Proof.
  apply List.Forall_forall. intros c Hc. apply filter_In in Hc as [_ Hc].
  destruct (cs c); [discriminate|reflexivity].
Qed.


Example validate_phone_number_examples :
  validate_phone_number (JStr "(+254) 700-000-000") = Some true
  /\ validate_phone_number (JStr "254+700000000") = Some false
  /\ validate_phone_number (JStr "0700 000 000") = Some true
  /\ validate_phone_number (JStr "070000000") = Some false
  /\ validate_phone_number (JStr "+1234567890123456") = Some false
  /\ validate_phone_number JNull = Some true
  /\ validate_phone_number (JInt 700000000) = None.
Proof. repeat split; vm_compute; reflexivity. Qed.

Lemma lstrip_suffix l : exists pre, l = pre ++ lstrip l.
Proof.
  induction l as [|c l [pre IH]]; [exists []; reflexivity|].
  simpl. destruct (is_space c).
  - exists (c :: pre). simpl. rewrite <- IH. reflexivity.
  - exists []. reflexivity.
Qed.

Lemma lstrip_head l c l' : lstrip l = c :: l' -> is_space c = false.
Proof.
  induction l as [|a l IH]; simpl; [discriminate|].
  destruct (is_space a) eqn:Ha; [exact IH|].
  intros [= <- _]. exact Ha.
Qed.

Lemma lstrip_id l : (forall c l', l = c :: l' -> is_space c = false) -> lstrip l = l.
Proof.
  destruct l as [|c l]; [reflexivity|]. intros H. simpl.
  rewrite (H c l eq_refl). reflexivity.
Qed.

Lemma strip_chars_middle l : exists pre suf, l = pre ++ strip_chars l ++ suf.
Proof.
  unfold strip_chars. destruct (lstrip_suffix l) as [pre Hpre].
  destruct (lstrip_suffix (rev (lstrip l))) as [suf Hsuf].
  exists pre, (rev suf). rewrite <- rev_app_distr, <- Hsuf, rev_involutive.
  exact Hpre.
Qed.

Lemma strip_chars_first l c l' : strip_chars l = c :: l' -> is_space c = false.
Proof.
  unfold strip_chars. intros H.
  destruct (lstrip_suffix (rev (lstrip l))) as [suf Hsuf].
  apply (f_equal (@rev ascii)) in Hsuf. rewrite rev_involutive, rev_app_distr, H in Hsuf.
  simpl in Hsuf. exact (lstrip_head _ _ _ Hsuf).
Qed.

Lemma strip_chars_last l c l' : strip_chars l = l' ++ [c] -> is_space c = false.
Proof.
  unfold strip_chars. intros H.
  apply (f_equal (@rev ascii)) in H. rewrite rev_involutive, rev_app_distr in H.
  simpl in H. exact (lstrip_head _ _ _ H).
Qed.

Lemma strip_chars_id l :
  (forall c l', l = c :: l' -> is_space c = false) ->
  (forall c l', l = l' ++ [c] -> is_space c = false) ->
  strip_chars l = l.
Proof.
  intros Hfirst Hlast. unfold strip_chars. rewrite (lstrip_id l Hfirst).
  rewrite lstrip_id; [apply rev_involutive|].
  intros c l' H. apply (Hlast c (rev l')).
  apply (f_equal (@rev ascii)) in H. rewrite rev_involutive in H. exact H.
Qed.

Lemma filter_sublist (f : ascii -> bool) l : sublist (List.filter f l) l.
Proof.
  induction l as [|c l IH]; simpl; [constructor|].
  destruct (f c); [apply sublist_skip|apply sublist_cons]; exact IH.
Qed.

Lemma filter_id (f : ascii -> bool) l :
  Forall (fun c => f c = true) l -> List.filter f l = l.
Proof.
  induction 1 as [|c l Hc _ IH]; simpl; [reflexivity|]. rewrite Hc, IH. reflexivity.
Qed.

Lemma sanitize_input_string t :
  sanitize_input (JStr t) = Some (JStr (strip (re_sub harmful t))).
Proof.
  unfold sanitize_input. cbn [truthy].
  destruct (String.eqb_spec t "") as [->|_]; reflexivity.
Qed.

(** X28: what [sanitize_input] returns. The sanitized text holds none of
    the characters the pattern names and neither starts nor ends with
    white space; it is made of characters of the input, in their order;
    and sanitizing it again changes nothing. *)
Theorem sanitize_input_clean t :
  exists t',
    sanitize_input (JStr t) = Some (JStr t')
    /\ Forall (fun c => harmful c = false) (list_ascii_of_string t')
    /\ (forall c l, list_ascii_of_string t' = c :: l -> is_space c = false)
    /\ (forall c l, list_ascii_of_string t' = l ++ [c] -> is_space c = false)
    /\ sublist (list_ascii_of_string t') (list_ascii_of_string t)
    /\ sanitize_input (JStr t') = Some (JStr t').
Proof.
  exists (strip (re_sub harmful t)). split; [apply sanitize_input_string|].
  unfold strip at 1 2 3 4, re_sub at 1 2 3 4.
  rewrite !list_ascii_of_string_of_list_ascii.
  set (kept := List.filter (fun c => negb (harmful c)) (list_ascii_of_string t)).
  assert (Hkept : Forall (fun c => harmful c = false) (strip_chars kept)).
  { destruct (strip_chars_middle kept) as (pre & suf & Hm).
    pose proof (filter_taken_out harmful (list_ascii_of_string t)) as H.
    fold kept in H. rewrite Hm in H. rewrite !Forall_app in H. tauto. }
  split; [exact Hkept|]. split; [apply strip_chars_first|].
  split; [apply strip_chars_last|]. split.
  - destruct (strip_chars_middle kept) as (pre & suf & Hm).
    transitivity kept; [|apply filter_sublist].
    rewrite Hm at 2. apply sublist_inserts_l, sublist_inserts_r. reflexivity.
  - rewrite sanitize_input_string. do 2 f_equal.
    unfold strip, re_sub. rewrite !list_ascii_of_string_of_list_ascii.
    fold kept. rewrite filter_id.
    + rewrite strip_chars_id; [reflexivity|apply strip_chars_first|apply strip_chars_last].
    + eapply Forall_impl; [exact Hkept|]. intros c ->. reflexivity.
Qed.

Example sanitize_input_examples :
  sanitize_input (JStr "  <b>Leak</b> at 5%; call (now) & +more  ")
  = Some (JStr "bLeak/b at 5 call now  more")
  /\ sanitize_input (JStr "") = Some (JStr "")
  /\ sanitize_input JNull = Some JNull
  /\ sanitize_input (JInt 7) = None.
Proof. repeat split; vm_compute; reflexivity. Qed.

(** ** Handlers that depend on the outside *)

Section Properties.

Context {outside : External}.

(** Case analysis on a block whose outcome feeds the rest of a handler. *)
Ltac stuck_outcome :=
  match goal with
  | H : context [mbind _ ?m] |- _ => destruct m eqn:?
  end.

(** ** The public projection *)

Lemma to_public_dict_redacted s id r :
  to_public_dict s id r !! "normal_user_id" = None
  /\ to_public_dict s id r !! "creator_name" = Some (JStr "Anonymous").
Proof.
  unfold to_public_dict. rewrite orb_true_r. split.
  - rewrite lookup_insert_ne by discriminate. apply lookup_delete_eq.
  - apply lookup_insert_eq.
Qed.

(** C6: every record of the public list view lacks the key
    [normal_user_id] and carries [creator_name = "Anonymous"], whatever
    the record's [is_anonymous] flag and owner. *)
Theorem get_public_records_redacted s args :
  Forall (fun d => d !! "normal_user_id" = None
                   /\ d !! "creator_name" = Some (JStr "Anonymous"))
    (response_records (get_public_records s args)).
Proof.
  unfold get_public_records.
  destruct (get_pagination_params args) as [page per_page].
  destruct (paginate _ _ _) as [[items total] pages]. simpl.
  apply Forall_fmap, Forall_forall. intros [id r] _. apply to_public_dict_redacted.
Qed.

(** ** Anonymous reports *)

Lemma records_set_media s t : records (set_media s t) = records s.
Proof. reflexivity. Qed.

(** C5: a successful anonymous report (response 201) adds exactly one
    record, and that record has status under-investigation, no owner and
    [is_anonymous = true]; in particular it is not a draft. *)
Theorem anonymous_report_under_investigation now uuid s data s' resp :
  anonymous_report now uuid s data = (s', resp) ->
  code resp = 201 ->
  exists id r,
    records s !! id = None /\ records s' = <[id := r]> (records s)
    /\ status r = "under-investigation" /\ normal_user_id r = None
    /\ is_anonymous r = true /\ status r <> "draft".
Proof.
  unfold anonymous_report, add_record, add_media, flush_record, flush_media.
  intros H Hcode.
  repeat (case_match; simplify_eq/=); try discriminate.
  all: exists (next_id (records s)), (anonymous_record now data).
  all: repeat split; try apply next_id_fresh; discriminate.
Qed.

(** A report that is not accepted leaves the database as it was. *)
Lemma anonymous_report_rejected now uuid s data s' resp :
  anonymous_report now uuid s data = (s', resp) ->
  code resp <> 201 -> s' = s.
Proof.
  unfold anonymous_report, add_record, add_media, flush_record, flush_media.
  intros H Hcode.
  repeat (case_match; simplify_eq/=); congruence.
Qed.

(** ** Status transitions *)

Lemma update_status_accepted now s ident id data record new_status :
  ident_role ident = "admin" ->
  records s !! id = Some record ->
  dict_get data "status" = JStr new_status ->
  new_status ∈ status_targets ->
  accepts_record (transition now ident data new_status record) = true ->
  accepts_history (new_history id (status record) new_status (Some (ident_id ident))
                     (dict_get_default data "reason" (JStr "")) now) = true ->
  exists s',
    update_status now s ident id data
    = (s', make_response
             (WithRecord ("Status updated to " +:+ new_status)
                (to_dict s' id (transition now ident data new_status record))) 200)
    /\ records s' = <[id := transition now ident data new_status record]> (records s)
    /\ status_history s'
       = status_history s
         ++ [new_history id (status record) new_status (Some (ident_id ident))
               (dict_get_default data "reason" (JStr "")) now]
    /\ votes s' = votes s /\ media s' = media s.
Proof.
  intros Hrole Hrec Hst Hin Hacc Hhist.
  unfold update_status, get_or_404, create_status_history, flush_history,
    flush_record_update.
  rewrite Hrole, Hrec, Hst. simpl.
  rewrite bool_decide_true by exact Hin. simpl.
  unfold assigns_null. rewrite !lookup_empty. simpl.
  rewrite Hacc. simpl. rewrite Hhist. simpl.
  eexists. repeat split.
Qed.

(** What a status request can do to the database: nothing, or rewrite
    the addressed record by [transition]. *)
Lemma update_status_step now s ident id data s' resp :
  update_status now s ident id data = (s', resp) ->
  (s' = s /\ code resp <> 200)
  \/ (code resp = 200 /\ exists record new_status,
        records s !! id = Some record
        /\ new_status ∈ status_targets
        /\ dict_get data "status" = JStr new_status
        /\ records s' = <[id := transition now ident data new_status record]> (records s)).
Proof.
  unfold update_status, get_or_404, create_status_history, flush_history,
    flush_record_update.
  intros H.
  repeat (case_match; simplify_eq/=); try (left; split; [reflexivity|discriminate]).
  right. split; [reflexivity|]. eexists _, _. repeat split; try eassumption.
  match goal with
  | Hn : negb (bool_decide _) = false |- _ =>
      apply negb_false_iff, bool_decide_eq_true in Hn; exact Hn
  end.
Qed.

Lemma update_status_invalid_target now s ident id data :
  in_strings (dict_get data "status") status_targets = false ->
  (update_status now s ident id data).1 = s
  /\ code (update_status now s ident id data).2 <> 200.
Proof.
  intros Hbad. unfold update_status, get_or_404.
  repeat (case_match; simplify_eq/=); try (split; [reflexivity|discriminate]).
  match goal with
  | Hn : negb (bool_decide _) = false |- _ =>
      apply negb_false_iff in Hn; congruence
  end.
Qed.

(** C1, amended: the handler checks the target of a transition, not the
    current status. For an existing record in any status, the terminal ones
    resolved and rejected included, an administrator's request for one of
    the targets under-investigation, rejected, resolved is accepted when the
    engine stores the write: the response is 200, the record's status
    becomes the target, and the history gains the entry old -> new. *)
Theorem update_status_from_any_status now s ident id data record target :
  ident_role ident = "admin" ->
  records s !! id = Some record ->
  dict_get data "status" = JStr target ->
  target ∈ status_targets ->
  accepts_record (transition now ident data target record) = true ->
  accepts_history (new_history id (status record) target (Some (ident_id ident))
                     (dict_get_default data "reason" (JStr "")) now) = true ->
  let '(s', resp) := update_status now s ident id data in
  code resp = 200
  /\ status <$> records s' !! id = Some target
  /\ exists h, status_history s' = status_history s ++ [h]
       /\ history_record_id h = id
       /\ old_status h = Some (status record)
       /\ new_status h = target.
Proof.
  intros Hrole Hrec Hst Hin Hacc Hhist.
  destruct (update_status_accepted now s ident id data record target
              Hrole Hrec Hst Hin Hacc Hhist) as (s' & -> & Hrecs & Hh & _).
  split; [reflexivity|]. split.
  - rewrite Hrecs, lookup_insert_eq. reflexivity.
  - eexists. split; [exact Hh|]. repeat split.
Qed.

(** ** The assigned administrator *)

Lemma transition_keeps_admin now ident data new_status record a :
  assigned_admin_id record = Some a -> a <> 0 ->
  assigned_admin_id (transition now ident data new_status record) = Some a.
Proof.
  intros Ha Hnz. simpl. rewrite Ha. simpl.
  destruct (Z.eqb_spec a 0); [contradiction|reflexivity].
Qed.

Lemma run_status_call_keeps_admin s c id a :
  a <> 0 ->
  assigned_admin_id <$> records s !! id = Some (Some a) ->
  assigned_admin_id <$> records (run_status_call s c) !! id = Some (Some a).
Proof.
  intros Hnz Hs. unfold run_status_call.
  destruct (update_status _ s _ _ _) as [s' resp] eqn:E. simpl.
  apply update_status_step in E as [[-> _]|[_ (record & st & Hrec & _ & _ & ->)]];
    [exact Hs|].
  destruct (decide (call_id c = id)) as [<-|Hne].
  - rewrite lookup_insert_eq. rewrite Hrec in Hs. injection Hs as Hs.
    rewrite <- (transition_keeps_admin (call_now c) (call_ident c) (call_data c)
                  st record a Hs Hnz).
    reflexivity.
  - rewrite lookup_insert_ne by assumption. exact Hs.
Qed.

(** C7: the first accepted transition on a record without an assigned
    administrator assigns the acting administrator, and once a record has
    an assigned administrator no sequence of later status requests, by
    whichever administrators and on whichever records, changes it.
    Administrator ids are primary keys and so are not 0. *)
Theorem assigned_admin_id_first_wins s id record :
  records s !! id = Some record ->
  (assigned_admin_id record = None ->
   forall now ident data s' resp,
     update_status now s ident id data = (s', resp) ->
     code resp = 200 ->
     assigned_admin_id <$> records s' !! id = Some (Some (ident_id ident)))
  /\ (forall a, assigned_admin_id record = Some a -> a <> 0 ->
      forall calls,
        assigned_admin_id <$> records (run_status_calls calls s) !! id = Some (Some a)).
Proof.
  intros Hrec. split.
  - intros Hnone now ident data s' resp E Hcode.
    apply update_status_step in E as [[_ Hn]|[_ (record' & st & Hrec' & _ & _ & ->)]];
      [contradiction|].
    rewrite lookup_insert_eq. simpl. rewrite Hrec in Hrec'. injection Hrec' as <-.
    rewrite Hnone. reflexivity.
  - intros a Ha Hnz calls.
    assert (Hs : assigned_admin_id <$> records s !! id = Some (Some a))
      by (rewrite Hrec; simpl; congruence).
    clear Hrec Ha. revert s Hs.
    induction calls as [|c calls IH]; intros s Hs; [exact Hs|].
    simpl. apply IH. apply run_status_call_keeps_admin; assumption.
Qed.

(** ** Owner edits *)

(** The record is absent: [get_or_404] raises [NotFound] inside the
    handler's [try], the [except Exception] clause catches it, and the
    response is the handler's 500, not a 404. *)
Lemma update_record_absent now s ident id data :
  records s !! id = None ->
  update_record now s ident id data
  = (s, make_response (Error "Failed to update record") 500).
Proof. intros H. unfold update_record, get_or_404. rewrite H. reflexivity. Qed.

(** The caller is not the owning user: 403, nothing changes. *)
Lemma update_record_not_owner now s ident id data record :
  records s !! id = Some record -> not_owner ident record = true ->
  update_record now s ident id data = (s, make_response (Error "Unauthorized") 403).
Proof.
  intros H Hn. unfold update_record, get_or_404. rewrite H. simpl.
  rewrite Hn. reflexivity.
Qed.

(** The record is not a draft: 400, nothing changes. *)
Lemma update_record_not_draft now s ident id data record :
  records s !! id = Some record -> not_owner ident record = false ->
  status record <> "draft" ->
  update_record now s ident id data
  = (s, make_response (Error "Only draft records can be edited") 400).
Proof.
  intros H Hn Hd. unfold update_record, get_or_404. rewrite H. simpl.
  rewrite Hn. apply String.eqb_neq in Hd. rewrite Hd. reflexivity.
Qed.

Lemma update_media_frame now s id data s' :
  update_media now s id data = Done s' ->
  records s' = records s /\ votes s' = votes s
  /\ status_history s' = status_history s.
Proof.
  unfold update_media, add_media, flush_media. intros H.
  repeat (case_match; simplify_eq/=); repeat split.
Qed.

(** What an update request can do to the database: nothing, or patch the
    addressed draft of the caller. *)
Lemma update_record_step now s ident id data s' resp :
  update_record now s ident id data = (s', resp) ->
  (s' = s /\ code resp <> 200)
  \/ (code resp = 200 /\ exists record,
        records s !! id = Some record
        /\ not_owner ident record = false
        /\ status record = "draft"
        /\ records s' = <[id := apply_patch now data record]> (records s)
        /\ votes s' = votes s /\ status_history s' = status_history s).
Proof.
  unfold update_record, get_or_404, flush_record_update. intros H.
  destruct (records s !! id) as [record|] eqn:Hrec; simpl in H;
    [|left; simplify_eq; split; [reflexivity|discriminate]].
  destruct (not_owner ident record) eqn:Hn;
    [left; simplify_eq/=; split; [reflexivity|discriminate]|].
  destruct (String.eqb_spec (status record) "draft") as [Hd|Hd]; simpl in H;
    [|left; simplify_eq; split; [reflexivity|discriminate]].
  repeat (first [ case_match | stuck_outcome ]; simplify_eq/=);
    try (left; split; [reflexivity|discriminate]).
  all: right; split; [reflexivity|]; exists record.
  all: match goal with
       | Hm : update_media _ _ _ _ = Done _ |- _ =>
           apply update_media_frame in Hm as (Hr & Hv & Hh)
       end.
  all: simpl in *; repeat split; assumption.
Qed.

(** A refused update or delete leaves the whole database as it was. *)
Lemma update_record_refused now s ident id data s' resp :
  update_record now s ident id data = (s', resp) -> code resp <> 200 -> s' = s.
Proof.
  intros E Hc. apply update_record_step in E as [[-> _]|[Hc' _]];
    [reflexivity|contradiction].
Qed.

(** A patch that holds the type alone passes every check of the handler. *)
Lemma update_record_type_only now s ident id record t :
  records s !! id = Some record -> not_owner ident record = false ->
  status record = "draft" ->
  accepts_record (apply_patch now {[ "type" := JStr t ]} record) = true ->
  code (update_record now s ident id {[ "type" := JStr t ]}).2 = 200.
Proof.
  intros H Hn Hd Hacc. unfold update_record, get_or_404. rewrite H. simpl.
  rewrite Hn, Hd. simpl.
  unfold flush_record_update, update_media, dict_has, assigns_null.
  rewrite !lookup_singleton_ne by discriminate.
  rewrite lookup_singleton_eq.
  rewrite !bool_decide_false by (intros [? ?]; discriminate).
  simpl. rewrite Hacc. reflexivity.
Qed.

(** C10: in an update of a draft by its owner, a string under the key
    type is not compared with the allowed types. Whenever the update is
    accepted the stored type is that string, and a patch that holds the
    type alone is accepted for every string, allowed type or not, when the
    engine stores the row. *)
Theorem update_record_type_verbatim now s ident id data record t :
  records s !! id = Some record ->
  not_owner ident record = false ->
  status record = "draft" ->
  data !! "type" = Some (JStr t) ->
  (forall s' resp,
     update_record now s ident id data = (s', resp) -> code resp = 200 ->
     r_type <$> records s' !! id = Some (JStr t))
  /\ (accepts_record (apply_patch now {[ "type" := JStr t ]} record) = true ->
      let '(s', resp) := update_record now s ident id {[ "type" := JStr t ]} in
      code resp = 200 /\ r_type <$> records s' !! id = Some (JStr t)).
Proof.
  intros H Hn Hd Ht.
  assert (Hgen : forall data' s' resp,
            data' !! "type" = Some (JStr t) ->
            update_record now s ident id data' = (s', resp) -> code resp = 200 ->
            r_type <$> records s' !! id = Some (JStr t)).
  { intros data' s' resp Ht' E Hc.
    apply update_record_step in E as [[_ Hc']|[_ (record' & Hrec' & _ & _ & -> & _)]];
      [contradiction|].
    rewrite lookup_insert_eq. simpl. f_equal.
    apply dict_get_default_present. exact Ht'. }
  split.
  - intros s' resp. apply Hgen. exact Ht.
  - intros Hacc.
    pose proof (update_record_type_only now s ident id record t H Hn Hd Hacc) as Hc.
    destruct (update_record now s ident id {[ "type" := JStr t ]}) as [s' resp] eqn:E.
    split; [exact Hc|].
    eapply Hgen; [|exact E|exact Hc]. apply lookup_singleton_eq.
Qed.

(** ** Validation at creation *)

Lemma dict_get_default_type data k :
  k <> "type" -> dict_get (default_type data) k = dict_get data k.
Proof.
  intros Hk. unfold default_type, dict_get. case_match; [|reflexivity].
  rewrite lookup_insert_ne by congruence. reflexivity.
Qed.

Lemma between_inject lo hi n :
  between lo hi (FFinite (inject_Z n)) = bool_decide (lo <= n <= hi).
Proof.
  unfold between, Qle_bool, inject_Z. simpl. rewrite !Z.mul_1_r.
  destruct (Z.leb_spec lo n), (Z.leb_spec n hi); simpl;
    symmetry; first [apply bool_decide_eq_true | apply bool_decide_eq_false]; lia.
Qed.

(** Two integer coordinates of which one is out of range do not validate. *)
Lemma validate_coordinates_out_of_range n m :
  Z.abs n < float_max_int -> Z.abs m < float_max_int ->
  ~ (-90 <= n <= 90 /\ -180 <= m <= 180) ->
  validate_coordinates (JInt n) (JInt m) = Done false.
Proof.
  intros Hn Hm Hout. unfold validate_coordinates, py_float. simpl.
  apply Z.ltb_lt in Hn, Hm. rewrite Hn, Hm. rewrite !between_inject.
  repeat case_bool_decide; simpl; try reflexivity. tauto.
Qed.

(** The authenticated path stores a record only after its checks: a
    request that changes the database had coordinates that validate, when
    it had any, and media URLs that validate, when it had any. *)
Lemma create_record_stores_validated now s ident data s' resp :
  create_record now s ident data = (s', resp) ->
  s' <> s ->
  (is_not_none (dict_get data "latitude") || is_not_none (dict_get data "longitude") = true ->
   validate_coordinates (dict_get data "latitude") (dict_get data "longitude") = Done true)
  /\ (truthy (dict_get data "image_url") = true ->
      validate_media_url (dict_get data "image_url") "image" = true)
  /\ (truthy (dict_get data "video_url") = true ->
      validate_media_url (dict_get data "video_url") "video" = true).
Proof.
  unfold create_record, unhandled. intros H Hne.
  rewrite !dict_get_default_type in H by discriminate.
  destruct (negb (ident_role ident =? "user")%string);
    [simpl in H; simplify_eq; congruence|].
  destruct (negb (truthy (dict_get data "title")));
    [simpl in H; simplify_eq; congruence|].
  assert (Hcoord : is_not_none (dict_get data "latitude")
                   || is_not_none (dict_get data "longitude") = true ->
                   validate_coordinates (dict_get data "latitude")
                     (dict_get data "longitude") = Done true
                   \/ s' = s).
  { intros Hc. rewrite Hc in H.
    destruct (validate_coordinates _ _) as [[|]|]; simpl in H;
      [left; reflexivity|right; simplify_eq; reflexivity
      |right; simplify_eq; reflexivity]. }
  split; [intros Hc; destruct (Hcoord Hc); [assumption|contradiction]|].
  clear Hcoord.
  destruct (if is_not_none (dict_get data "latitude")
               || is_not_none (dict_get data "longitude")
            then validate_coordinates (dict_get data "latitude")
                   (dict_get data "longitude")
            else Done true) as [[|]|];
    simpl in H; [|simplify_eq; congruence|simplify_eq; congruence].
  destruct (truthy (dict_get data "image_url")) eqn:Hi;
    destruct (validate_media_url (dict_get data "image_url") "image") eqn:Hvi;
    simpl in H; try (simplify_eq; congruence);
    destruct (truthy (dict_get data "video_url")) eqn:Hv;
    destruct (validate_media_url (dict_get data "video_url") "video") eqn:Hvv;
    simpl in H; try (simplify_eq; congruence);
    split; congruence.
Qed.

(** A request of a user with both coordinates given and not valid is
    answered 400 and stores nothing. *)
Lemma create_record_rejects_coordinates now s ident data :
  ident_role ident = "user" ->
  truthy (dict_get data "title") = true ->
  is_not_none (dict_get data "latitude") = true ->
  validate_coordinates (dict_get data "latitude") (dict_get data "longitude") = Done false ->
  create_record now s ident data
  = (s, make_response (Error "Invalid coordinates provided") 400).
Proof.
  intros Hrole Ht Hlat Hv. unfold create_record, unhandled.
  rewrite Hrole, Ht. simpl.
  rewrite !dict_get_default_type by discriminate.
  rewrite Hlat, Hv. reflexivity.
Qed.

(** ** The effect of a request *)

Lemma add_media_added s m s' :
  add_media s m = Done s' ->
  records s' = records s /\ votes s' = votes s
  /\ status_history s' = status_history s /\ normal_users s' = normal_users s
  /\ media s' = <[next_id (media s) := m]> (media s).
Proof.
  unfold add_media, flush_media. intros H.
  repeat (case_match; simplify_eq/=). repeat split.
Qed.

Lemma anonymous_report_effect now uuid s data s' resp :
  anonymous_report now uuid s data = (s', resp) -> effect s s'.
Proof.
  unfold anonymous_report, add_record, flush_record. intros H.
  destruct (truthy (dict_get data "title")) eqn:Ht; simpl in H;
    [|simplify_eq; apply effect_none; reflexivity].
  destruct (truthy (dict_get data "description")) eqn:Hd; simpl in H;
    [|simplify_eq; apply effect_none; reflexivity].
  destruct (in_strings (dict_get data "type") valid_types) eqn:Hty; simpl in H;
    [|simplify_eq; apply effect_none; reflexivity].
  destruct (record_not_null (anonymous_record now data)
            && accepts_record (anonymous_record now data)); simpl in H;
    [|simplify_eq; apply effect_none; reflexivity].
  assert (Hc : created_row (anonymous_record now data)).
  { left. exists now, data. repeat split; assumption. }
  destruct (truthy (dict_get data "image_url") || truthy (dict_get data "video_url")).
  - match type of H with
    | context [add_media ?a ?b] => destruct (add_media a b) as [s2|] eqn:Hm
    end; simpl in H; simplify_eq; [|apply effect_none; reflexivity].
    apply add_media_added in Hm as (Hr & Hv & Hh & Hu & Hmed). simpl in *.
    eapply effect_created; eauto.
    right. eexists. split; [exact Hmed|reflexivity].
  - simpl in H. simplify_eq. eapply effect_created; eauto; try reflexivity.
    left. reflexivity.
Qed.

(** What [create_record] does when it writes: the new draft under the
    next id, a media row if the request had a URL, and a response that
    depends on the caller's user row. *)
Lemma create_record_cases now s ident data s' resp :
  create_record now s ident data = (s', resp) ->
  (s' = s /\ code resp <> 201)
  \/ (ident_role ident = "user"
      /\ truthy (dict_get data "title") = true
      /\ records s' = <[next_id (records s) := owned_record now ident (default_type data)]>
                        (records s)
      /\ media_added s s' (next_id (records s))
      /\ votes s' = votes s /\ status_history s' = status_history s
      /\ normal_users s' = normal_users s
      /\ code resp = match normal_users s !! ident_id ident with
                     | Some _ => 201
                     | None => 500
                     end).
Proof.
  unfold create_record, unhandled, add_record, flush_record. intros H.
  destruct (String.eqb_spec (ident_role ident) "user") as [Hrole|Hrole]; simpl in H;
    [|simplify_eq; left; split; [reflexivity|discriminate]].
  destruct (truthy (dict_get data "title")) eqn:Ht; simpl in H;
    [|simplify_eq; left; split; [reflexivity|discriminate]].
  match type of H with
  | context [mbind _ ?m] => destruct m as [[|]|]
  end; simpl in H; try (simplify_eq; left; split; [reflexivity|discriminate]).
  destruct (truthy (dict_get (default_type data) "image_url")
            && negb (validate_media_url (dict_get (default_type data) "image_url") "image"));
    simpl in H; [simplify_eq; left; split; [reflexivity|discriminate]|].
  destruct (truthy (dict_get (default_type data) "video_url")
            && negb (validate_media_url (dict_get (default_type data) "video_url") "video"));
    simpl in H; [simplify_eq; left; split; [reflexivity|discriminate]|].
  destruct (record_not_null (owned_record now ident (default_type data))
            && accepts_record (owned_record now ident (default_type data))); simpl in H;
    [|simplify_eq; left; split; [reflexivity|discriminate]].
  destruct (truthy (dict_get (default_type data) "image_url")
            || truthy (dict_get (default_type data) "video_url")).
  - match type of H with
    | context [add_media ?a ?b] => destruct (add_media a b) as [s2|] eqn:Hm
    end; simpl in H; [|simplify_eq; left; split; [reflexivity|discriminate]].
    apply add_media_added in Hm as (Hr & Hv & Hh & Hu & Hmed). simpl in *.
    right. rewrite Hu in H.
    destruct (normal_users s !! ident_id ident); simpl in H; simplify_eq;
      repeat split; try assumption;
      right; eexists; (split; [exact Hmed|reflexivity]).
  - simpl in H. right.
    destruct (normal_users s !! ident_id ident); simpl in H; simplify_eq;
      repeat split; try assumption; left; reflexivity.
Qed.

Lemma create_record_effect now s ident data s' resp :
  create_record now s ident data = (s', resp) -> effect s s'.
Proof.
  intros H.
  apply create_record_cases in H
    as [[-> _]|(Hrole & Ht & Hrec & Hmed & Hv & Hh & Hu & _)];
    [apply effect_none; reflexivity|].
  eapply effect_created; eauto.
  right. exists now, ident, data. repeat split; assumption.
Qed.

Lemma update_media_changed now s id data s' :
  update_media now s id data = Done s' ->
  records s' = records s /\ votes s' = votes s
  /\ status_history s' = status_history s /\ normal_users s' = normal_users s
  /\ media_changed s s' id.
Proof.
  unfold update_media, flush_media. intros H.
  destruct (dict_has data "image_url" || dict_has data "video_url");
    [|simplify_eq; repeat split; left; left; reflexivity].
  destruct (first _ (media s)) as [[mid m]|] eqn:Hf.
  - apply first_Some in Hf as [Hm Hid]. apply Z.eqb_eq in Hid.
    repeat (case_match; simplify_eq/=). repeat split.
    right. eexists mid, m, _.
    split; [exact Hm|]. split; [reflexivity|]. split; [|reflexivity]. reflexivity.
  - apply add_media_added in H as (Hr & Hv & Hh & Hu & Hmed).
    repeat split; try assumption.
    left. right. eexists. split; [exact Hmed|reflexivity].
Qed.

Lemma update_record_effect now s ident id data s' resp :
  update_record now s ident id data = (s', resp) -> effect s s'.
Proof.
  unfold update_record, get_or_404, flush_record_update. intros H.
  destruct (records s !! id) as [record|] eqn:Hrec; simpl in H;
    [|simplify_eq; apply effect_none; reflexivity].
  destruct (not_owner ident record) eqn:Hn;
    [simplify_eq/=; apply effect_none; reflexivity|].
  destruct (String.eqb_spec (status record) "draft") as [Hd|Hd]; simpl in H;
    [|simplify_eq; apply effect_none; reflexivity].
  repeat (first [ case_match | stuck_outcome ]; simplify_eq/=);
    try (apply effect_none; reflexivity).
  all: match goal with
       | Hm : update_media _ _ _ _ = Done _ |- _ =>
           apply update_media_changed in Hm as (Hr & Hv & Hh & Hu & Hmed)
       end.
  all: simpl in *; eapply effect_patched; eauto.
  all: destruct Hmed as [[Hm|(m & Hm & Hi)]|(mid & m & m' & Hm0 & Hi & Hi' & Hm)].
  all: first [ left; left; exact Hm
             | left; right; exists m; split; assumption
             | right; exists mid, m, m'; repeat split; assumption ].
Qed.

Lemma delete_record_effect s ident id s' resp :
  delete_record s ident id = (s', resp) -> effect s s'.
Proof.
  unfold delete_record, get_or_404. intros H.
  destruct (records s !! id) as [record|] eqn:Hrec; simpl in H;
    [|simplify_eq; apply effect_none; reflexivity].
  destruct (not_owner ident record) eqn:Hn;
    [simplify_eq/=; apply effect_none; reflexivity|].
  destruct (String.eqb_spec (status record) "draft") as [Hd|Hd]; simpl in H;
    simplify_eq; [|apply effect_none; reflexivity].
  eapply effect_deleted; eauto.
Qed.

Lemma vote_record_effect now s ident rid data s' resp :
  vote_record now s ident rid data = (s', resp) -> effect s s'.
Proof.
  intros H.
  assert (Hrole : s' = s \/ ident_role ident = "user").
  { unfold vote_record in H.
    destruct (String.eqb_spec (ident_role ident) "user"); [right; assumption|].
    left. simpl in H. congruence. }
  apply vote_record_step in H as [[-> _]|[_ (vt & _ & Hvt & Hrec & ->)]];
    [apply effect_none; reflexivity|].
  destruct Hrole as [->|Hrole]; [apply effect_none; reflexivity|].
  eapply effect_voted; eauto.
Qed.

Lemma remove_vote_effect s ident rid s' resp :
  remove_vote s ident rid = (s', resp) -> effect s s'.
Proof.
  intros H.
  assert (Hrole : s' = s \/ ident_role ident = "user").
  { unfold remove_vote in H.
    destruct (String.eqb_spec (ident_role ident) "user"); [right; assumption|].
    left. simpl in H. congruence. }
  apply remove_vote_step in H as [[-> _]|[_ (vid & v & Hv & Hr & Hu & ->)]];
    [apply effect_none; reflexivity|].
  destruct Hrole as [->|Hrole]; [apply effect_none; reflexivity|].
  eapply effect_unvoted; eauto.
Qed.

Lemma update_status_effect now s ident id data s' resp :
  update_status now s ident id data = (s', resp) -> effect s s'.
Proof.
  unfold update_status, get_or_404, create_status_history, flush_history,
    flush_record_update. intros H.
  destruct (String.eqb_spec (ident_role ident) "admin") as [Hrole|Hrole]; simpl in H;
    [|simplify_eq; apply effect_none; reflexivity].
  repeat (case_match; simplify_eq/=); try (apply effect_none; reflexivity).
  eapply effect_transitioned; eauto; try reflexivity.
  match goal with
  | Hn : negb (bool_decide _) = false |- _ =>
      apply negb_false_iff, bool_decide_eq_true in Hn; exact Hn
  end.
Qed.

(** Every request acts on the database by one of the effects. *)
Lemma handle_effect s r :
  effect s (handle s r).1.
Proof.
  destruct (handle s r) as [s' resp] eqn:H. simpl.
  destruct r; simpl in H;
    eauto using anonymous_report_effect, create_record_effect, update_record_effect,
      delete_record_effect, vote_record_effect, remove_vote_effect,
      update_status_effect.
Qed.

Lemma run_requests_invariant (I : db -> Prop) :
  (forall s s', I s -> effect s s' -> I s') ->
  forall requests s, I s -> I (run_requests requests s).
Proof.
  intros Hstep requests. unfold run_requests.
  induction requests as [|r rs IH]; intros s Hs; simpl; [exact Hs|].
  apply IH. eapply Hstep; [exact Hs|apply handle_effect].
Qed.

Lemma status_targets_not_draft target :
  target ∈ status_targets -> target <> "draft".
Proof.
  unfold status_targets. rewrite !elem_of_cons, elem_of_nil.
  intros [->|[->|[->|[]]]]; discriminate.
Qed.

(** A property of single records that the row builders establish and the
    rewrites keep is kept by every request. *)
Lemma effect_records_invariant (P : RecordRow -> Prop) :
  (forall r, created_row r -> P r) ->
  (forall now data r, P r -> status r = "draft" -> P (apply_patch now data r)) ->
  (forall now ident data target r,
     P r -> target ∈ status_targets -> P (transition now ident data target r)) ->
  (forall r n, P r -> P (set_vote_count r n)) ->
  forall s s', map_Forall (fun _ => P) (records s) -> effect s s' ->
               map_Forall (fun _ => P) (records s').
Proof.
  intros Hc Hp Ht Hv s s' Hs Heff.
  assert (Hcount : forall s0 rid,
            map_Forall (fun _ => P) (records s0) ->
            map_Forall (fun _ => P) (records (update_vote_count s0 rid).1)).
  { intros s0 rid H0. unfold update_vote_count.
    destruct (records s0 !! rid) as [r0|] eqn:E0; simpl; [|exact H0].
    apply map_Forall_insert_2; [|exact H0]. apply Hv. exact (H0 rid r0 E0). }
  destruct Heff as [->|r Hr -> _ _ _ _|now ident id data r Hr Hd _ -> _ _ _ _
                   |ident id r Hr Hd _ ->|now ident id vt _ _ _ ->
                   |ident id vid v _ _ _ _ ->
                   |now ident id data target r Hr Htg _ _ -> _ _ _ _].
  - exact Hs.
  - apply map_Forall_insert_2; [apply Hc; exact Hr|exact Hs].
  - apply map_Forall_insert_2; [|exact Hs]. apply Hp; [exact (Hs id r Hr)|exact Hd].
  - simpl. apply map_Forall_delete. exact Hs.
  - apply Hcount. rewrite upsert_vote_records. exact Hs.
  - apply Hcount. exact Hs.
  - apply map_Forall_insert_2; [|exact Hs]. apply Ht; [exact (Hs id r Hr)|exact Htg].
Qed.

(** ** Invariants kept by every request *)

(** X1: the status column stays within draft, under-investigation, resolved
    and rejected: if every record has one of these statuses, every record
    has one after any sequence of requests to the writing routes. *)
Theorem statuses_stay_known requests s :
  statuses_known s -> statuses_known (run_requests requests s).
Proof.
  revert requests s. apply run_requests_invariant. intros s s'.
  apply effect_records_invariant.
  - intros r [(now & data & -> & _)|(now & ident & data & -> & _)]; simpl;
      unfold statuses; rewrite !elem_of_cons; tauto.
  - intros now data r H _. exact H.
  - intros now ident data target r _ Ht. simpl.
    unfold status_targets in Ht. unfold statuses.
    rewrite !elem_of_cons in Ht. rewrite !elem_of_cons. tauto.
  - intros r n H. exact H.
Qed.

(** X2: ownership stays coherent: if every record is anonymous exactly
    when it has no owner, and no ownerless record is a draft, the same holds
    after any sequence of requests. *)
Theorem ownership_stays_coherent requests s :
  ownership_coherent s -> ownership_coherent (run_requests requests s).
Proof.
  revert requests s. apply run_requests_invariant. intros s s'.
  apply (effect_records_invariant
           (fun r => (is_anonymous r = true <-> normal_user_id r = None)
                     /\ (normal_user_id r = None -> status r <> "draft"))).
  - intros r [(now & data & -> & _)|(now & ident & data & -> & _)]; simpl.
    + repeat split; discriminate.
    + repeat split; discriminate.
  - intros now data r H _. exact H.
  - intros now ident data target r [H _] Ht. simpl. split; [exact H|].
    intros _. apply status_targets_not_draft. exact Ht.
  - intros r n H. exact H.
Qed.

(** X3: a draft never has an assigned administrator: the property is kept
    by any sequence of requests, since a transition is the only write of
    [assigned_admin_id] and it takes the record out of draft. *)
Theorem drafts_stay_unassigned requests s :
  drafts_unassigned s -> drafts_unassigned (run_requests requests s).
Proof.
  revert requests s. apply run_requests_invariant. intros s s'.
  apply (effect_records_invariant
           (fun r => status r = "draft" -> assigned_admin_id r = None)).
  - intros r [(now & data & -> & _)|(now & ident & data & -> & _)]; simpl;
      [discriminate|reflexivity].
  - intros now data r H _. exact H.
  - intros now ident data target r _ Ht Hd. simpl in Hd.
    apply status_targets_not_draft in Ht. contradiction.
  - intros r n H. exact H.
Qed.

Lemma same_content_refl r : same_content r r.
Proof. repeat split. Qed.

Lemma same_content_trans r1 r2 r3 :
  same_content r1 r2 -> same_content r2 r3 -> same_content r1 r3.
Proof. unfold same_content. intros H1 H2. intuition congruence. Qed.

(** One request keeps a record that is not a draft. *)
Lemma published_record_step s s' id r :
  records s !! id = Some r -> status r <> "draft" -> effect s s' ->
  exists r', records s' !! id = Some r' /\ status r' <> "draft" /\ same_content r r'.
Proof.
  intros H1 Hd1 Heff.
  destruct Heff as [->|r0 _ -> _ _ _ _|now ident id0 data r0 Hr0 Hd0 _ -> _ _ _ _
                   |ident id0 r0 Hr0 Hd0 _ ->|now ident id0 vt _ _ _ ->
                   |ident id0 vid v _ _ _ _ ->
                   |now ident id0 data target r0 Hr0 Htg _ _ -> _ _ _ _].
  - exists r. split; [exact H1|]. split; [exact Hd1|]. apply same_content_refl.
  - exists r. rewrite lookup_insert_ne.
    + split; [exact H1|]. split; [exact Hd1|]. apply same_content_refl.
    + intros <-. rewrite next_id_fresh in H1. discriminate.
  - exists r. rewrite lookup_insert_ne by congruence.
    split; [exact H1|]. split; [exact Hd1|]. apply same_content_refl.
  - exists r. simpl. rewrite lookup_delete_ne by congruence.
    split; [exact H1|]. split; [exact Hd1|]. apply same_content_refl.
  - rewrite <- (upsert_vote_records now s id0 (ident_id ident) vt) in H1.
    destruct (update_vote_count_keeps _ id0 id r H1) as (r' & H' & Hs & Hc & _).
    exists r'. split; [exact H'|]. split; [congruence|exact Hc].
  - destruct (update_vote_count_keeps (set_votes s (delete vid (votes s))) id0 id r H1)
      as (r' & H' & Hs & Hc & _).
    exists r'. split; [exact H'|]. split; [congruence|exact Hc].
  - destruct (decide (id0 = id)) as [->|Hne].
    + rewrite lookup_insert_eq. eexists. split; [reflexivity|].
      rewrite Hr0 in H1. injection H1 as ->.
      split; [simpl; apply status_targets_not_draft; exact Htg|]. repeat split.
    + exists r. rewrite lookup_insert_ne by exact Hne.
      split; [exact H1|]. split; [exact Hd1|]. apply same_content_refl.
Qed.

(** X4: a record that has left draft is permanent: after any sequence of
    requests, by any users and administrators, it is still stored under its
    id, it is still not a draft, and its type, title, description, location,
    urgency, owner, anonymity flag and creation time are what they were. *)
Theorem published_record_is_permanent requests s id r :
  records s !! id = Some r ->
  status r <> "draft" ->
  exists r', records (run_requests requests s) !! id = Some r'
             /\ status r' <> "draft" /\ same_content r r'.
Proof.
  intros Hr Hd.
  apply (run_requests_invariant
           (fun s => exists r', records s !! id = Some r'
                                /\ status r' <> "draft" /\ same_content r r')).
  - clear s Hr. intros s s' (r1 & H1 & Hd1 & Hc1) Heff.
    destruct (published_record_step s s' id r1 H1 Hd1 Heff) as (r' & H' & Hd' & Hc').
    exists r'. split; [exact H'|]. split; [exact Hd'|].
    eapply same_content_trans; eassumption.
  - exists r. split; [exact Hr|]. split; [exact Hd|]. apply same_content_refl.
Qed.

Lemma update_vote_count_is_Some s rid k :
  is_Some (records s !! k) -> is_Some (records (update_vote_count s rid).1 !! k).
Proof.
  intros [r Hr]. destruct (update_vote_count_keeps s rid k r Hr) as (r' & H' & _).
  eauto.
Qed.

Lemma rows_reference_records_step s s' :
  rows_reference_records s -> effect s s' -> rows_reference_records s'.
Proof.
  intros [Hv Hm] Heff.
  destruct Heff as [->|r0 _ Hrec Hmed Hvo _ _|now ident id0 data r0 Hr0 _ _ Hrec Hmed Hvo _ _
                   |ident id0 r0 Hr0 _ _ ->|now ident id0 vt Hex _ _ ->
                   |ident id0 vid v Hvid _ _ _ ->
                   |now ident id0 data target r0 Hr0 _ _ _ Hrec _ Hvo Hme _].
  - split; assumption.
  - assert (Hkeep : forall k, is_Some (records s !! k) -> is_Some (records s' !! k)).
    { intros k Hk. rewrite Hrec. apply is_Some_insert_keep, Hk. }
    split.
    + rewrite Hvo. intros k v Hk. apply Hkeep, (Hv k v Hk).
    + destruct Hmed as [->|(m & -> & Hid)].
      * intros k m Hk. apply Hkeep, (Hm k m Hk).
      * apply map_Forall_insert_2.
        -- rewrite Hid, Hrec, lookup_insert_eq. eauto.
        -- intros k m' Hk. apply Hkeep, (Hm k m' Hk).
  - assert (Hkeep : forall k, is_Some (records s !! k) -> is_Some (records s' !! k)).
    { intros k Hk. rewrite Hrec. apply is_Some_insert_keep, Hk. }
    split.
    + rewrite Hvo. intros k v Hk. apply Hkeep, (Hv k v Hk).
    + destruct Hmed as [[->|(m & -> & Hid)]|(mid & m & m' & Hm0 & Hid & Hid' & ->)].
      * intros k m Hk. apply Hkeep, (Hm k m Hk).
      * apply map_Forall_insert_2.
        -- apply Hkeep. rewrite Hid. eauto.
        -- intros k m' Hk. apply Hkeep, (Hm k m' Hk).
      * apply map_Forall_insert_2.
        -- apply Hkeep. rewrite Hid'. eauto.
        -- intros k m1 Hk. apply Hkeep, (Hm k m1 Hk).
  - split; simpl.
    + intros k v Hk. apply map_lookup_filter_Some in Hk as [Hk Hne]. simpl in Hne.
      rewrite lookup_delete_ne by congruence. apply (Hv k v Hk).
    + intros k m Hk. apply map_lookup_filter_Some in Hk as [Hk Hne]. simpl in Hne.
      rewrite lookup_delete_ne by congruence. apply (Hm k m Hk).
  - destruct (upsert_vote_spec now s id0 (ident_id ident) vt)
      as (k & v & Hvotes & Hr & _).
    pose proof (upsert_vote_records now s id0 (ident_id ident) vt) as Hrecs.
    destruct (upsert_vote_frame now s id0 (ident_id ident) vt) as (Hme & _).
    destruct (update_vote_count_frame (upsert_vote now s id0 (ident_id ident) vt).1 id0)
      as (Hme' & _).
    split.
    + rewrite update_vote_count_votes, Hvotes.
      apply map_Forall_insert_2.
      * apply update_vote_count_is_Some. rewrite Hrecs, Hr. exact Hex.
      * intros k' v' Hk'. apply update_vote_count_is_Some. rewrite Hrecs.
        apply (Hv k' v' Hk').
    + rewrite Hme', Hme. intros k' m Hk'.
      apply update_vote_count_is_Some. rewrite Hrecs. apply (Hm k' m Hk').
  - destruct (update_vote_count_frame (set_votes s (delete vid (votes s))) id0)
      as (Hme' & _).
    split.
    + rewrite update_vote_count_votes. simpl. intros k v' Hk.
      apply lookup_delete_Some in Hk as [_ Hk].
      apply update_vote_count_is_Some. simpl. apply (Hv k v' Hk).
    + rewrite Hme'. simpl. intros k m Hk.
      apply update_vote_count_is_Some. simpl. apply (Hm k m Hk).
  - assert (Hkeep : forall k, is_Some (records s !! k) -> is_Some (records s' !! k)).
    { intros k Hk. rewrite Hrec. apply is_Some_insert_keep, Hk. }
    split.
    + rewrite Hvo. intros k v Hk. apply Hkeep, (Hv k v Hk).
    + rewrite Hme. intros k m Hk. apply Hkeep, (Hm k m Hk).
Qed.

(** X5: no request leaves a dangling row: if every vote row and every
    media row belongs to a stored record, they still do after any sequence
    of requests, deletions of records included. *)
Theorem rows_keep_their_records requests s :
  rows_reference_records s -> rows_reference_records (run_requests requests s).
Proof.
  revert requests s. apply run_requests_invariant. exact rows_reference_records_step.
Qed.

Lemma created_row_vote_count r : created_row r -> vote_count r = 0.
Proof. intros [(? & ? & -> & _)|(? & ? & ? & -> & _)]; reflexivity. Qed.

Lemma vote_count_consistent_step s s' :
  rows_reference_records s -> vote_count_consistent s -> effect s s' ->
  vote_count_consistent s'.
Proof.
  intros [Hrefs _] Hs Heff. unfold vote_count_consistent in *.
  destruct Heff as [->|r0 Hc Hrec _ Hvo _ _|now ident id0 data r0 Hr0 _ _ Hrec _ Hvo _ _
                   |ident id0 r0 Hr0 _ _ ->|now ident id0 vt _ _ _ ->
                   |ident id0 vid v Hvid Hvr _ _ ->
                   |now ident id0 data target r0 Hr0 _ _ _ Hrec _ Hvo _ _].
  - exact Hs.
  - rewrite Hrec, Hvo. apply map_Forall_insert_2; [|exact Hs].
    rewrite (created_row_vote_count r0 Hc). symmetry. apply count_none.
    intros k v Hk. apply Z.eqb_neq. intros Heq.
    destruct (Hrefs k v Hk) as [r' Hr']. rewrite Heq, next_id_fresh in Hr'.
    discriminate.
  - rewrite Hrec, Hvo. apply map_Forall_insert_2; [|exact Hs].
    exact (Hs id0 r0 Hr0).
  - simpl. intros id r Hr. apply lookup_delete_Some in Hr as [Hne Hr].
    rewrite count_filter; [exact (Hs id r Hr)|].
    intros k v _ Hon. simpl. apply Z.eqb_eq in Hon. congruence.
  - apply update_vote_count_consistent. intros id r Hne Hr.
    rewrite upsert_vote_records in Hr.
    rewrite upsert_vote_count_other by exact Hne. exact (Hs id r Hr).
  - apply update_vote_count_consistent. intros id r Hne Hr. simpl in *.
    rewrite count_delete_other; [exact (Hs id r Hr)|].
    intros v0 Hv0. rewrite Hvid in Hv0. injection Hv0 as <-.
    apply (votes_on_false id0); [exact Hvr|exact Hne].
  - rewrite Hrec, Hvo. apply map_Forall_insert_2; [|exact Hs].
    exact (Hs id0 r0 Hr0).
Qed.

(** X6: the cached vote count survives every route, not only the voting
    ones: on a database without dangling rows, if every record's
    [vote_count] equals the number of its vote rows, it still does after any
    sequence of requests, record creations, edits, deletions and
    transitions included. *)
Theorem vote_count_matches_rows_everywhere requests s :
  rows_reference_records s -> vote_count_consistent s ->
  vote_count_consistent (run_requests requests s).
Proof.
  intros Hr Hc.
  apply (run_requests_invariant
           (fun s => rows_reference_records s /\ vote_count_consistent s));
    [|split; assumption].
  clear. intros s s' [Hr Hc] Heff. split.
  - eapply rows_reference_records_step; eassumption.
  - eapply vote_count_consistent_step; eassumption.
Qed.

Lemma one_vote_per_pair_step s s' :
  one_vote_per_pair s -> effect s s' -> one_vote_per_pair s'.
Proof.
  intros Hs Heff.
  destruct Heff as [->|r0 _ _ _ Hvo _ _|now ident id0 data r0 _ _ _ _ _ Hvo _ _
                   |ident id0 r0 _ _ _ ->|now ident id0 vt _ _ _ ->
                   |ident id0 vid v _ _ _ _ ->
                   |now ident id0 data target r0 _ _ _ _ _ _ Hvo _ _].
  - exact Hs.
  - eapply one_vote_per_pair_votes; eassumption.
  - eapply one_vote_per_pair_votes; eassumption.
  - intros k1 v1 H1 k2 v2 H2. simpl in *.
    apply map_lookup_filter_Some in H1 as [H1 _].
    apply map_lookup_filter_Some in H2 as [H2 _].
    exact (Hs k1 v1 H1 k2 v2 H2).
  - eapply one_vote_per_pair_votes; [apply update_vote_count_votes|].
    apply upsert_vote_one_per_pair, Hs.
  - eapply one_vote_per_pair_votes; [apply update_vote_count_votes|].
    apply one_vote_per_pair_delete, Hs.
  - eapply one_vote_per_pair_votes; eassumption.
Qed.

(** X7: the handlers never need the unique constraint of the votes table
    to stop them: on a table with at most one row per (record, user) pair,
    no sequence of requests produces a second row for a pair. *)
Theorem one_vote_per_pair_everywhere requests s :
  one_vote_per_pair s -> one_vote_per_pair (run_requests requests s).
Proof.
  revert requests s. apply run_requests_invariant. exact one_vote_per_pair_step.
Qed.

(** ** The status history *)

(** What one request does to the history: nothing, or one more entry at
    the end. *)
Lemma effect_history s s' :
  history_of_published s -> effect s s' ->
  status_history s' = status_history s
  \/ exists now ident id data target r,
       records s !! id = Some r /\ target ∈ status_targets
       /\ ident_role ident = "admin"
       /\ records s' = <[id := transition now ident data target r]> (records s)
       /\ status_history s'
          = status_history s
            ++ [new_history id (status r) target (Some (ident_id ident))
                  (dict_get_default data "reason" (JStr "")) now].
Proof.
  intros HJ Heff.
  destruct Heff as [->|r0 _ _ _ _ Hh _|now ident id0 data r0 _ _ _ _ _ _ Hh _
                   |ident id0 r0 Hr0 Hd0 _ ->|now ident id0 vt _ _ _ ->
                   |ident id0 vid v _ _ _ _ ->
                   |now ident id0 data target r0 Hr0 Htg Hrole _ Hrec Hh _ _ _].
  - left. reflexivity.
  - left. exact Hh.
  - left. exact Hh.
  - left. simpl. apply filter_all. eapply Forall_impl; [exact HJ|].
    intros h (r & Hr & Hd) Heq. simpl in Heq. congruence.
  - left. destruct (update_vote_count_frame
                      (upsert_vote now s id0 (ident_id ident) vt).1 id0) as (_ & -> & _).
    apply upsert_vote_frame.
  - left. destruct (update_vote_count_frame
                      (set_votes s (delete vid (votes s))) id0) as (_ & -> & _).
    reflexivity.
  - right. exists now, ident, id0, data, target, r0. repeat split; assumption.
Qed.

Lemma history_of_published_step s s' :
  history_of_published s -> effect s s' -> history_of_published s'.
Proof.
  intros HJ Heff.
  assert (Hold : Forall (fun h => exists r, records s' !! history_record_id h = Some r
                                            /\ status r <> "draft") (status_history s)).
  { eapply Forall_impl; [exact HJ|]. intros h (r & Hr & Hd).
    destruct (published_record_step s s' _ r Hr Hd Heff) as (r' & H' & Hd' & _).
    eauto. }
  unfold history_of_published.
  destruct (effect_history s s' HJ Heff)
    as [->|(now & ident & id & data & target & r & Hr & Htg & _ & Hrec & ->)];
    [exact Hold|].
  apply Forall_app. split; [exact Hold|].
  apply Forall_singleton. simpl. rewrite Hrec, lookup_insert_eq.
  eexists. split; [reflexivity|].
  simpl. apply status_targets_not_draft. exact Htg.
Qed.

(** X8: the status history is append-only. On a database whose history
    entries all belong to records that have left draft, no sequence of
    requests removes or rewrites an entry: the history before is a prefix
    of the history after. A deletion cascades to the history of the
    deleted record, but only a draft can be deleted and a draft has no
    history. *)
Theorem status_history_is_append_only requests s :
  history_of_published s ->
  history_of_published (run_requests requests s)
  /\ status_history s `prefix_of` status_history (run_requests requests s).
Proof.
  intros HJ.
  apply (run_requests_invariant
           (fun s1 => history_of_published s1
                      /\ status_history s `prefix_of` status_history s1));
    [|split; [exact HJ|reflexivity]].
  clear HJ. intros s1 s2 [HJ Hp] Heff. split.
  - eapply history_of_published_step; eassumption.
  - destruct (effect_history s1 s2 HJ Heff) as [->|(? & ? & ? & ? & ? & ? & _ & _ & _ & _ & ->)];
      [exact Hp|].
    etransitivity; [exact Hp|]. apply prefix_app_r. reflexivity.
Qed.

Lemma history_of_unreferenced s id :
  history_of_published s -> records s !! id = None -> history_of s id = [].
Proof.
  intros HJ Hn. unfold history_of. unfold history_of_published in HJ.
  induction HJ as [|h l (r & Hr & _) _ IH]; [reflexivity|].
  rewrite filter_cons_False; [exact IH|]. congruence.
Qed.

(** How one request moves a record and its history. *)
Lemma effect_record_history s s' id r' :
  history_of_published s -> effect s s' -> records s' !! id = Some r' ->
  (records s !! id = None /\ status_history s' = status_history s)
  \/ (exists r, records s !! id = Some r /\ status r' = status r
                /\ history_of s' id = history_of s id)
  \/ (exists r h, records s !! id = Some r
                  /\ history_of s' id = history_of s id ++ [h]
                  /\ old_status h = Some (status r)
                  /\ new_status h = status r').
Proof.
  intros HJ Heff Hr'.
  pose proof (effect_history s s' HJ Heff) as Hhist.
  destruct Heff as [->|r0 _ Hrec _ _ Hh _|now ident id0 data r0 Hr0 _ _ Hrec _ _ Hh _
                   |ident id0 r0 Hr0 Hd0 _ ->|now ident id0 vt _ _ _ ->
                   |ident id0 vid v _ _ _ _ ->
                   |now ident id0 data target r0 Hr0 Htg _ _ Hrec Hh _ _ _].
  - right. left. exists r'. repeat split. exact Hr'.
  - rewrite Hrec in Hr'. destruct (decide (next_id (records s) = id)) as [<-|Hne].
    + left. split; [apply next_id_fresh|exact Hh].
    + rewrite lookup_insert_ne in Hr' by exact Hne.
      right. left. exists r'. repeat split; [exact Hr'|].
      unfold history_of. rewrite Hh. reflexivity.
  - rewrite Hrec in Hr'. right. left.
    destruct (decide (id0 = id)) as [<-|Hne].
    + rewrite lookup_insert_eq in Hr'. injection Hr' as <-.
      exists r0. repeat split; [exact Hr0|]. unfold history_of. rewrite Hh. reflexivity.
    + rewrite lookup_insert_ne in Hr' by exact Hne.
      exists r'. repeat split; [exact Hr'|]. unfold history_of. rewrite Hh. reflexivity.
  - destruct Hhist as [Hh|(? & ? & ? & ? & ? & ? & _ & _ & _ & _ & Hh)].
    + simpl in Hr'. apply lookup_delete_Some in Hr' as [_ Hr'].
      right. left. exists r'. repeat split; [exact Hr'|].
      unfold history_of. rewrite Hh. reflexivity.
    + exfalso. simpl in Hh.
      assert (Hlen : (length (filter (fun h => history_record_id h ≠ id0)
                                (status_history s))
                      <= length (status_history s))%nat) by apply length_filter.
      rewrite Hh, length_app in Hlen. simpl in Hlen. lia.
  - rewrite update_vote_count_lookup in Hr'.
    destruct (update_vote_count_frame
                (upsert_vote now s id0 (ident_id ident) vt).1 id0) as (_ & Hh1 & _).
    destruct (upsert_vote_frame now s id0 (ident_id ident) vt) as (_ & Hh2 & _).
    rewrite upsert_vote_records in Hr'.
    right. left. case_decide.
    + subst. destruct (records s !! id0) as [r|] eqn:E; [|discriminate].
      injection Hr' as <-. exists r. repeat split.
      unfold history_of. rewrite Hh1, Hh2. reflexivity.
    + exists r'. repeat split; [exact Hr'|].
      unfold history_of. rewrite Hh1, Hh2. reflexivity.
  - rewrite update_vote_count_lookup in Hr'. simpl in Hr'.
    destruct (update_vote_count_frame (set_votes s (delete vid (votes s))) id0)
      as (_ & Hh1 & _).
    right. left. case_decide.
    + subst. destruct (records s !! id0) as [r|] eqn:E; [|discriminate].
      injection Hr' as <-. exists r. repeat split.
      unfold history_of. rewrite Hh1. reflexivity.
    + exists r'. repeat split; [exact Hr'|].
      unfold history_of. rewrite Hh1. reflexivity.
  - rewrite Hrec in Hr'. unfold history_of. rewrite Hh, filter_app.
    destruct (decide (id0 = id)) as [<-|Hne].
    + rewrite lookup_insert_eq in Hr'. injection Hr' as <-.
      right. right. eexists r0, _. split; [exact Hr0|].
      rewrite filter_cons_True by reflexivity. rewrite filter_nil.
      split; [reflexivity|]. split; reflexivity.
    + rewrite lookup_insert_ne in Hr' by exact Hne.
      right. left. exists r'. repeat split; [exact Hr'|].
      rewrite filter_cons_False by (simpl; congruence).
      rewrite filter_nil, app_nil_r. reflexivity.
Qed.

Lemma history_coherent_step s s' :
  history_of_published s -> history_coherent s -> effect s s' ->
  history_coherent s'.
Proof.
  intros HJ Hs Heff id r' Hr'.
  destruct (effect_record_history s s' id r' HJ Heff Hr')
    as [[Hn Hh]|[(r & Hr & Hst & Hh)|(r & h & Hr & Hh & Hold & Hnew)]].
  - unfold history_of. rewrite Hh.
    fold (history_of s id). rewrite (history_of_unreferenced s id HJ Hn).
    split; [exact I|]. discriminate.
  - rewrite Hh, Hst. exact (Hs id r Hr).
  - destruct (Hs id r Hr) as [Hc Hl]. rewrite Hh. split.
    + apply chained_snoc; [exact Hc|]. intros h0 H0. rewrite (Hl h0 H0). exact Hold.
    + intros h1. rewrite last_snoc. intros [= <-]. exact Hnew.
Qed.

(** X9: the history of a record tells its story. On a database whose
    history entries belong to records that have left draft, if for every
    record the entries form a chain (each entry starts from the status the
    one before reached) and the latest entry ends at the record's current
    status, the same holds after any sequence of requests. *)
Theorem history_stays_coherent requests s :
  history_of_published s -> history_coherent s ->
  history_coherent (run_requests requests s).
Proof.
  intros HJ Hc.
  apply (run_requests_invariant
           (fun s => history_of_published s /\ history_coherent s));
    [|split; assumption].
  clear. intros s s' [HJ Hc] Heff. split.
  - eapply history_of_published_step; eassumption.
  - eapply history_coherent_step; eassumption.
Qed.

(** ** Guards of the writing routes *)

(** X16: an update writes only for the owner of a draft, and only the
    editable fields. If [update_record] changes the database at all, the
    caller has the role user and owns the record, the record was a draft and
    the response is 200; the record is still a draft with the same owner,
    anonymity flag, vote count, assigned administrator, resolution notes and
    creation time; and the other records, the votes and the status history
    are untouched. *)
Theorem update_record_guarded now s ident id data s' resp :
  update_record now s ident id data = (s', resp) ->
  s' <> s ->
  code resp = 200
  /\ (exists r r',
        records s !! id = Some r /\ records s' !! id = Some r'
        /\ ident_role ident = "user" /\ normal_user_id r = Some (ident_id ident)
        /\ status r = "draft" /\ status r' = "draft"
        /\ normal_user_id r' = normal_user_id r /\ is_anonymous r' = is_anonymous r
        /\ vote_count r' = vote_count r
        /\ assigned_admin_id r' = assigned_admin_id r
        /\ resolution_notes r' = resolution_notes r
        /\ created_at r' = created_at r /\ updated_at r' = now)
  /\ (forall id', id' <> id -> records s' !! id' = records s !! id')
  /\ votes s' = votes s /\ status_history s' = status_history s.
Proof.
  intros H Hne.
  apply update_record_step in H
    as [[-> _]|[Hc (r & Hr & Hn & Hd & Hrec & Hv & Hh)]]; [contradiction|].
  apply not_owner_false in Hn as [Hrole Hown].
  split; [exact Hc|]. split.
  - exists r, (apply_patch now data r). rewrite Hrec, lookup_insert_eq.
    repeat split; assumption.
  - split; [|split; assumption].
    intros id' Hid. rewrite Hrec. apply lookup_insert_ne. congruence.
Qed.

Lemma update_status_cases now s ident id data s' resp :
  update_status now s ident id data = (s', resp) ->
  s' = s
  \/ (code resp = 200 /\ ident_role ident = "admin"
      /\ exists r target,
           records s !! id = Some r /\ target ∈ status_targets
           /\ dict_get data "status" = JStr target
           /\ records s' = <[id := transition now ident data target r]> (records s)
           /\ status_history s'
              = status_history s
                ++ [new_history id (status r) target (Some (ident_id ident))
                      (dict_get_default data "reason" (JStr "")) now]
           /\ votes s' = votes s /\ media s' = media s
           /\ normal_users s' = normal_users s).
Proof.
  unfold update_status, get_or_404, create_status_history, flush_history,
    flush_record_update. intros H.
  destruct (String.eqb_spec (ident_role ident) "admin") as [Hrole|Hrole]; simpl in H;
    [|simplify_eq; left; reflexivity].
  repeat (case_match; simplify_eq/=); try (left; reflexivity).
  right. split; [reflexivity|]. split; [exact Hrole|].
  eexists _, _. repeat split; try eassumption.
  match goal with
  | Hn : negb (bool_decide _) = false |- _ =>
      apply negb_false_iff, bool_decide_eq_true in Hn; exact Hn
  end.
Qed.

(** X17: a status request writes only for an administrator, and only the
    workflow fields. If [update_status] changes the database at all, the
    caller has the role admin and the response is 200; the record keeps its
    type, title, description, location, urgency, owner, anonymity flag,
    creation time and vote count, its new status is the requested target,
    the status history has grown by exactly one entry, written in the name
    of the caller, and the other records, the votes and the media are
    untouched. *)
Theorem update_status_guarded now s ident id data s' resp :
  update_status now s ident id data = (s', resp) ->
  s' <> s ->
  code resp = 200 /\ ident_role ident = "admin"
  /\ (exists r r' h,
        records s !! id = Some r /\ records s' !! id = Some r'
        /\ same_content r r' /\ vote_count r' = vote_count r
        /\ dict_get data "status" = JStr (status r')
        /\ status r' ∈ status_targets
        /\ status_history s' = status_history s ++ [h]
        /\ history_record_id h = id /\ changed_by h = Some (ident_id ident)
        /\ old_status h = Some (status r) /\ new_status h = status r')
  /\ (forall id', id' <> id -> records s' !! id' = records s !! id')
  /\ votes s' = votes s /\ media s' = media s.
Proof.
  intros H Hne.
  apply update_status_cases in H
    as [->|(Hc & Hrole & r & target & Hr & Htg & Hst & Hrec & Hh & Hv & Hm & _)];
    [contradiction|].
  split; [exact Hc|]. split; [exact Hrole|]. split.
  - eexists r, _, _. rewrite Hrec, lookup_insert_eq.
    split; [exact Hr|]. split; [reflexivity|].
    split; [repeat split|]. split; [reflexivity|].
    split; [exact Hst|]. split; [exact Htg|]. split; [exact Hh|]. repeat split.
  - split; [|split; assumption].
    intros id' Hid. rewrite Hrec. apply lookup_insert_ne. congruence.
Qed.

(** ** New records *)




(** X19: [create_record] commits before it answers. When it changes the
    database, it has stored one record under a fresh id: a draft owned by
    the caller, who has the role user. The response is 201 when the
    caller's user row exists; when it does not, the confirmation step fails
    after the commit and the response is 500 although the record is
    stored. *)
Theorem create_record_commits_first now s ident data s' resp :
  create_record now s ident data = (s', resp) ->
  s' <> s ->
  ident_role ident = "user"
  /\ (exists id r,
        records s !! id = None /\ records s' = <[id := r]> (records s)
        /\ status r = "draft" /\ normal_user_id r = Some (ident_id ident)
        /\ title r = dict_get data "title")
  /\ code resp = match normal_users s !! ident_id ident with
                 | Some _ => 201
                 | None => 500
                 end.
Proof.
  intros H Hne.
  apply create_record_cases in H
    as [[-> _]|(Hrole & Ht & Hrec & _ & _ & _ & _ & Hcode)]; [contradiction|].
  split; [exact Hrole|]. split; [|exact Hcode].
  exists (next_id (records s)), (owned_record now ident (default_type data)).
  split; [apply next_id_fresh|]. split; [exact Hrec|].
  repeat split. simpl. apply dict_get_default_type. discriminate.
Qed.

(** ** The list views *)

(** X20: what the public list shows. The records of a response of
    [get_public_records] are the public projections of distinct stored
    records, none of them a draft, each passing the status, type and urgency
    filters of the request, ordered by vote count, highest first, and by
    creation time, latest first, among records with the same count. *)
Theorem public_list_shows_published_by_votes s args :
  exists items : list (Z * RecordRow),
    response_records (get_public_records s args)
    = (fun kr => to_public_dict s kr.1 kr.2) <$> items
    /\ NoDup items.*1
    /\ Forall (fun kr =>
         records s !! kr.1 = Some kr.2
         /\ status kr.2 <> "draft"
         /\ matches_filter (args !! "status") (JStr (status kr.2)) = true
         /\ matches_filter (args !! "type") (r_type kr.2) = true
         /\ matches_filter (args !! "urgency") (urgency_level kr.2) = true) items
    /\ StronglySorted public_order items.
Proof.
  unfold get_public_records.
  destruct (get_pagination_params args) as [page per_page].
  match goal with
  | |- context [paginate page per_page (merge_sort public_order (select ?P ?m))] =>
      pose proof (page_of_selection public_order P m page per_page
                    public_order_total public_order_trans) as (Hnd & Hall & Hs);
      destruct (paginate page per_page (merge_sort public_order (select P m)))
        as [[items total] pages]
  end.
  simpl in *. exists items. split; [reflexivity|]. split; [exact Hnd|].
  split; [|exact Hs].
  eapply Forall_impl; [exact Hall|]. intros [k r] [Hk HP]. simpl in *.
  rewrite !andb_true_iff in HP. destruct HP as [[[[Hd H1] H2] H3] _].
  repeat split; try assumption.
  intros Heq. rewrite Heq in Hd. discriminate.
Qed.


Lemma to_dict_normal_user_id s id r :
  to_dict s id r !! "normal_user_id" = Some (json_of_id (normal_user_id r)).
Proof. reflexivity. Qed.

(** X22: the owner's list shows own records only. A caller without the
    role user gets 403 and no record; for a user, the records of
    [get_my_records] are the full projections of distinct stored records
    owned by the caller, drafts included, latest first, and each carries the
    caller's id under [normal_user_id]. *)
Theorem get_my_records_shows_own s ident args :
  (ident_role ident <> "user" ->
   code (get_my_records s ident args) = 403
   /\ response_records (get_my_records s ident args) = [])
  /\ exists items : list (Z * RecordRow),
       response_records (get_my_records s ident args)
       = (fun kr => to_dict s kr.1 kr.2) <$> items
       /\ NoDup items.*1
       /\ Forall (fun kr =>
            records s !! kr.1 = Some kr.2
            /\ normal_user_id kr.2 = Some (ident_id ident)
            /\ to_dict s kr.1 kr.2 !! "normal_user_id" = Some (JInt (ident_id ident)))
            items
       /\ StronglySorted created_order items.
Proof.
  unfold get_my_records.
  destruct (String.eqb_spec (ident_role ident) "user") as [Hrole|Hrole]; cbn [negb].
  - split; [intros Hn; contradiction|].
    destruct (get_pagination_params args) as [page per_page].
    match goal with
    | |- context [paginate page per_page (merge_sort created_order (select ?P ?m))] =>
        pose proof (page_of_selection created_order P m page per_page
                      created_order_total created_order_trans) as (Hnd & Hall & Hs);
        destruct (paginate page per_page (merge_sort created_order (select P m)))
          as [[items total] pages]
    end.
    simpl in *. exists items. split; [reflexivity|]. split; [exact Hnd|].
    split; [|exact Hs].
    eapply Forall_impl; [exact Hall|]. intros [k r] [Hk HP]. simpl in *.
    rewrite !andb_true_iff in HP. destruct HP as [[[Ho _] _] _].
    apply bool_decide_eq_true in Ho.
    split; [exact Hk|]. split; [exact Ho|].
    rewrite to_dict_normal_user_id, Ho. reflexivity.
  - split; [intros _; split; reflexivity|].
    exists []. repeat split; constructor.
Qed.


(** ** The validators *)

Lemma between_spec lo hi q :
  between lo hi (FFinite q) = true <-> (inject_Z lo <= q)%Q /\ (q <= inject_Z hi)%Q.
Proof. unfold between. rewrite andb_true_iff, !Qle_bool_iff. reflexivity. Qed.

(** X24: what [validate_coordinates] checks. A coordinate given without
    the other is accepted whatever it is; two integers are accepted exactly
    when the latitude is within [-90, 90] and the longitude within
    [-180, 180]; two finite floats likewise; a NaN or an infinity is
    refused; and a list or an object in the place of the latitude is
    refused. *)
Theorem validate_coordinates_checks :
  (forall v, validate_coordinates v JNull = Done true
             /\ validate_coordinates JNull v = Done true)
  /\ (forall n m, Z.abs n < float_max_int -> Z.abs m < float_max_int ->
        validate_coordinates (JInt n) (JInt m)
        = Done (bool_decide (-90 <= n <= 90 /\ -180 <= m <= 180)))
  /\ (forall p q,
        validate_coordinates (JFloat (FFinite p)) (JFloat (FFinite q)) = Done true
        <-> ((inject_Z (-90) <= p)%Q /\ (p <= inject_Z 90)%Q)
            /\ ((inject_Z (-180) <= q)%Q /\ (q <= inject_Z 180)%Q))
  /\ (forall f g, f = FNaN \/ (exists b, f = FInf b) ->
        validate_coordinates (JFloat f) (JFloat g) = Done false
        /\ validate_coordinates (JFloat g) (JFloat f) = Done false)
  /\ (forall l o v, is_not_none v = true ->
        validate_coordinates (JArr l) v = Done false
        /\ validate_coordinates (JObj o) v = Done false).
Proof.
  split; [|split; [|split; [|split]]].
  - intros v. unfold validate_coordinates. simpl. split; [|reflexivity].
    rewrite orb_true_r. reflexivity.
  - intros n m Hn Hm. unfold validate_coordinates, py_float. simpl.
    apply Z.ltb_lt in Hn, Hm. rewrite Hn, Hm. rewrite !between_inject.
    repeat case_bool_decide; simpl; try reflexivity; tauto.
  - intros p q. unfold validate_coordinates. cbn [py_float is_not_none negb orb].
    rewrite <- !between_spec.
    destruct (between (-90) 90 (FFinite p)), (between (-180) 180 (FFinite q));
      simpl; intuition congruence.
  - intros f g Hf. unfold validate_coordinates. cbn [py_float is_not_none negb orb].
    assert (Hb : forall lo hi, between lo hi f = false)
      by (intros lo hi; destruct Hf as [->|[b ->]]; reflexivity).
    rewrite !Hb. split; [reflexivity|].
    destruct (between (-90) 90 g); reflexivity.
  - intros l o v Hv. unfold validate_coordinates. simpl. rewrite Hv. split; reflexivity.
Qed.


End Properties.

(** * Concrete requests *)

(** Stand-ins for the parameters of the handlers, for running them on
    concrete requests: the clock value printed in decimal for
    [isoformat], integer literals for [float] on a string, the parts of
    a URL of the form scheme://host/path, and an engine that stores every
    row. They are the instance at which the closed statements below run
    the handlers. *)
Definition clock_text (t : Z) : string := pretty t.

Definition float_of_int_literal (s : string) : option pyfloat :=
  (fun n => FFinite (inject_Z n)) <$> py_int s.

Fixpoint until_char (stop : ascii) (l : list ascii) : list ascii * list ascii :=
  match l with
  | [] => ([], [])
  | c :: l' =>
      if Ascii.eqb c stop then ([], l)
      else let '(a, b) := until_char stop l' in (c :: a, b)
  end.

Definition split_url (u : string) : option (string * string) :=
  match until_char ":" (list_ascii_of_string u) with
  | (scheme, _ :: c1 :: c2 :: rest) =>
      if Ascii.eqb c1 "/" && Ascii.eqb c2 "/" then
        Some (lower (string_of_list_ascii scheme),
              string_of_list_ascii (until_char "/" rest).1)
      else Some (lower (string_of_list_ascii scheme), "")
  | (scheme, _) => Some ("", "")
  end.

(** The pattern of the handlers is the search term between two percent
    signs: a column matches when it is text that contains the term, letter
    case apart. *)
Definition contains_term (col : json) (pattern : string) : bool :=
  match col with
  | JStr c =>
      let term := substring 1 (String.length pattern - 2) pattern in
      bool_decide (is_Some (index 0 (lower term) (lower c)))
  | _ => false
  end.

Definition stores_all {A} (row : A) : bool := true.

#[global] Instance sample_outside : External :=
  {| float_of_str := float_of_int_literal;
     urlparse := split_url;
     isoformat := clock_text;
     ilike := contains_term;
     accepts_record := stores_all;
     accepts_media := stores_all;
     accepts_history := stores_all |}.

Definition empty_db : db :=
  {| records := ∅; media := ∅; votes := ∅; status_history := []; normal_users := ∅ |}.

Definition alice : identity := {| ident_id := 5; ident_role := "user" |}.
Definition bob : identity := {| ident_id := 6; ident_role := "user" |}.
Definition admin2 : identity := {| ident_id := 2; ident_role := "admin" |}.
Definition admin3 : identity := {| ident_id := 3; ident_role := "admin" |}.

(** A record of user 5 with the given status. *)
Definition pothole (st : string) : RecordRow :=
  {| r_type := JStr "intervention";
     title := JStr "Pothole";
     description := JStr "Main street";
     status := st;
     latitude := JNull;
     longitude := JNull;
     location_name := JNull;
     created_at := 1;
     updated_at := 1;
     resolution_notes := JNull;
     is_anonymous := false;
     vote_count := 0;
     urgency_level := JStr "medium";
     normal_user_id := Some 5;
     assigned_admin_id := None |}.

(** A database with that one record, under the key 1. *)
Definition db_with (st : string) : db :=
  {| records := {[ 1 := pothole st ]}; media := ∅; votes := ∅;
     status_history := [];
     normal_users := {[ 5 := {| user_name := "Alice";
                                user_email := "alice@gmail.com";
                                phone_number := None |} ]} |}.

(** ** Status transitions *)

(** C1, as stated, fails: a resolved record is taken back to
    under-investigation by an administrator's request; the response is 200
    and the stored status changes. *)
Lemma update_status_reopens_resolved :
  let '(s', resp) :=
    update_status 9 (db_with "resolved") admin2 1
      {[ "status" := JStr "under-investigation" ]} in
  status <$> records (db_with "resolved") !! 1 = Some "resolved"
  /\ code resp = 200
  /\ status <$> records s' !! 1 = Some "under-investigation".
Proof. vm_compute. repeat split. Qed.

Lemma update_status_from_any_status_witness :
  let '(s', resp) :=
    update_status 9 (db_with "rejected") admin2 1
      {[ "status" := JStr "resolved"; "reason" := JStr "second look" ]} in
  code resp = 200
  /\ status <$> records s' !! 1 = Some "resolved"
  /\ exists h, status_history s' = status_history (db_with "rejected") ++ [h]
       /\ history_record_id h = 1
       /\ old_status h = Some (status (pothole "rejected"))
       /\ new_status h = "resolved".
Proof.
  apply (update_status_from_any_status 9
           (db_with "rejected") admin2 1
           {[ "status" := JStr "resolved"; "reason" := JStr "second look" ]}
           (pothole "rejected") "resolved").
  - reflexivity.
  - reflexivity.
  - reflexivity.
  - unfold status_targets. set_solver.
  - reflexivity.
  - reflexivity.
Defined.

(** ** The assigned administrator *)

Definition to_investigation : gmap string json :=
  {[ "status" := JStr "under-investigation" ]}.

Definition to_resolved : gmap string json :=
  {[ "status" := JStr "resolved"; "resolution_notes" := JStr "Fixed" ]}.

(** The draft after administrator 2 has moved it to under-investigation. *)
Definition claimed_db : db :=
  (update_status 9 (db_with "draft") admin2 1
     to_investigation).1.

Definition claimed : RecordRow :=
  transition 9 admin2 to_investigation "under-investigation" (pothole "draft").

Lemma assigned_admin_id_first_wins_witness :
  (assigned_admin_id claimed = None ->
   forall now ident data s' resp,
     update_status now claimed_db ident 1 data = (s', resp) ->
     code resp = 200 ->
     assigned_admin_id <$> records s' !! 1 = Some (Some (ident_id ident)))
  /\ (forall a, assigned_admin_id claimed = Some a -> a <> 0 ->
      forall calls,
        assigned_admin_id <$>
          records (run_status_calls calls claimed_db) !! 1
        = Some (Some a)).
Proof.
  apply (assigned_admin_id_first_wins claimed_db 1 claimed).
  vm_compute. reflexivity.
Defined.

Example assigned_admin_id_after_two_admins :
  assigned_admin_id <$> records claimed_db !! 1 = Some (Some 2)
  /\ assigned_admin_id <$>
       records (run_status_calls [ {| call_now := 10; call_ident := admin3; call_id := 1;
                       call_data := to_resolved |} ] claimed_db) !! 1
     = Some (Some 2).
Proof. split; vm_compute; reflexivity. Qed.

(** ** Votes *)

Definition support : gmap string json := {[ "vote_type" := JStr "support" ]}.
Definition urgent : gmap string json := {[ "vote_type" := JStr "urgent" ]}.

Definition vote_ops : list vote_op :=
  [ Cast 10 alice 1 support; Cast 11 bob 1 ∅; Cast 12 alice 1 urgent;
    Retract bob 1; Retract bob 1; Cast 13 alice 7 support ].

Lemma vote_count_matches_rows_witness :
  vote_count_consistent (db_with "under-investigation")
  /\ vote_count_consistent (run_vote_ops vote_ops (db_with "under-investigation")).
Proof.
  assert (H : vote_count_consistent (db_with "under-investigation"))
    by (apply (bool_decide_unpack _); vm_compute; exact I).
  split; [exact H|].
  apply (vote_count_matches_rows vote_ops (db_with "under-investigation") H).
Defined.

Example vote_count_after_ops :
  vote_count <$> records (run_vote_ops vote_ops (db_with "under-investigation")) !! 1
  = Some 1
  /\ size (votes (run_vote_ops vote_ops (db_with "under-investigation"))) = 1%nat.
Proof. split; vm_compute; reflexivity. Qed.

(** The database after user 5 has voted support on record 1. *)
Definition after_support : db :=
  (vote_record 10 (db_with "under-investigation") alice 1 support).1.

Lemma vote_record_single_row_witness :
  let s' := (vote_record 11 after_support alice 1 urgent).1 in
  one_vote_per_pair s'
  /\ exists k v,
       votes s' !! k = Some v
       /\ vote_record_id v = 1 /\ user_id v = ident_id alice
       /\ JStr (vote_type v) = dict_get_default urgent "vote_type" (JStr "support")
       /\ (forall k' v', votes s' !! k' = Some v' ->
             vote_record_id v' = 1 -> user_id v' = ident_id alice -> k' = k)
       /\ (forall k0 v0, votes after_support !! k0 = Some v0 ->
             vote_record_id v0 = 1 -> user_id v0 = ident_id alice ->
             k0 = k /\ dom (votes s') = dom (votes after_support)
             /\ size (votes s') = size (votes after_support)).
Proof.
  apply (vote_record_single_row 11 after_support alice 1 urgent
           (vote_record 11 after_support alice 1 urgent).1
           (vote_record 11 after_support alice 1 urgent).2).
  - apply (bool_decide_unpack _). vm_compute. exact I.
  - apply surjective_pairing.
  - vm_compute. reflexivity.
Defined.

Example vote_support_then_urgent :
  vote_type <$> (map_to_list (votes (vote_record 11 after_support alice 1 urgent).1)).*2
  = ["urgent"].
Proof. vm_compute. reflexivity. Qed.

(** ** Anonymous reports *)

Definition bribe : gmap string json :=
  {[ "title" := JStr "Bribe at checkpoint";
     "description" := JStr "Officer asked for money";
     "type" := JStr "red-flag" ]}.

Lemma anonymous_report_under_investigation_witness :
  exists id r,
    records empty_db !! id = None
    /\ records (anonymous_report 7 "1A2B3C4D"
                  empty_db bribe).1
       = <[id := r]> (records empty_db)
    /\ status r = "under-investigation" /\ normal_user_id r = None
    /\ is_anonymous r = true /\ status r <> "draft".
Proof.
  apply (anonymous_report_under_investigation 7 "1A2B3C4D" empty_db bribe _
           (anonymous_report 7 "1A2B3C4D"
              empty_db bribe).2).
  - apply surjective_pairing.
  - vm_compute. reflexivity.
Defined.

(** C8: the anonymous path stores what the authenticated path refuses. A
    report with latitude 999 and a media URL that is no http(s) URL of an
    image is answered 201 by [anonymous_report], and the record and its
    media row are stored with these values; [create_record] answers the same
    coordinates with 400 and stores nothing. *)
Theorem anonymous_report_skips_validation :
  let data : gmap string json :=
    {[ "title" := JStr "Bribe at checkpoint";
       "description" := JStr "Officer asked for money";
       "type" := JStr "red-flag";
       "latitude" := JInt 999;
       "longitude" := JInt 0;
       "image_url" := JStr "ftp://files/report.exe" ]} in
  let '(s', resp) :=
    anonymous_report 7 "1A2B3C4D" empty_db data in
  code resp = 201
  /\ latitude <$> records s' !! 1 = Some (JInt 999)
  /\ media_url <$> media s' !! 1 = Some (JStr "ftp://files/report.exe")
  /\ create_record 7 empty_db alice data
     = (empty_db, make_response (Error "Invalid coordinates provided") 400).
Proof. vm_compute. repeat split. Qed.

(** ** Owner edits *)

(** C4: an update or delete of a record that does not exist is not
    answered with a not-found error. [get_or_404] raises inside the
    handler's [try], the [except Exception] clause catches the exception,
    and the response is the generic 500 of the handler; the database is
    unchanged. *)
Theorem update_record_absent_answers_500 :
  update_record 9 (db_with "draft") alice 99 {[ "title" := JStr "New title" ]}
  = (db_with "draft", make_response (Error "Failed to update record") 500)
  /\ delete_record (db_with "draft") alice 99
     = (db_with "draft", make_response (Error "Failed to delete record") 500).
Proof. split; vm_compute; reflexivity. Qed.

Example update_record_guards :
  code (update_record 9 (db_with "draft") bob 1 {[ "title" := JStr "New title" ]}).2 = 403
  /\ code (update_record 9 (db_with "under-investigation") alice 1
             {[ "title" := JStr "New title" ]}).2 = 400
  /\ code (delete_record (db_with "resolved") alice 1).2 = 400
  /\ code (remove_vote (db_with "draft") alice 99).2 = 404.
Proof. repeat split; vm_compute; reflexivity. Qed.

Lemma update_record_type_verbatim_witness :
  (forall s' resp,
     update_record 9 (db_with "draft") alice 1 {[ "type" := JStr "banana" ]} = (s', resp) ->
     code resp = 200 ->
     r_type <$> records s' !! 1 = Some (JStr "banana"))
  /\ (accepts_record (apply_patch 9 {[ "type" := JStr "banana" ]} (pothole "draft")) = true ->
      let '(s', resp) :=
        update_record 9 (db_with "draft") alice 1 {[ "type" := JStr "banana" ]} in
      code resp = 200 /\ r_type <$> records s' !! 1 = Some (JStr "banana")).
Proof.
  apply (update_record_type_verbatim 9 (db_with "draft") alice 1
           {[ "type" := JStr "banana" ]} (pothole "draft") "banana").
  - reflexivity.
  - vm_compute. reflexivity.
  - reflexivity.
  - reflexivity.
Defined.

Example banana_is_not_a_type :
  in_strings (JStr "banana") valid_types = false
  /\ r_type <$>
       records (update_record 9 (db_with "draft") alice 1
                  {[ "type" := JStr "banana" ]}).1 !! 1
     = Some (JStr "banana").
Proof. split; vm_compute; reflexivity. Qed.

(** ** The public list view *)

Example public_projection_of_owned_record :
  let s := db_with "resolved" in
  let r := pothole "resolved" in
  is_anonymous r = false
  /\ to_dict s 1 r !! "creator_name" = Some (JStr "Alice")
  /\ to_dict s 1 r !! "normal_user_id" = Some (JInt 5)
  /\ (fun d => (d !! "id", d !! "creator_name", d !! "normal_user_id"))
       <$> response_records (get_public_records s ∅)
     = [(Some (JInt 1), Some (JStr "Anonymous"), None)]
  /\ response_records (get_public_records (db_with "draft") ∅) = [].
Proof. vm_compute. repeat split. Qed.

(** ** Sequences of requests *)

(** A day of requests on the database with one draft: an anonymous report
    with a picture, a new draft of user 6, an edit, votes, two transitions,
    a refused edit and the deletion of the new draft. *)
Definition busy_day : list request :=
  [ PostPublicReport 10 "1A2B3C4D"
      (<["image_url" := JStr "http://host/p.png"]> bribe);
    PostRecord 11 bob {[ "title" := JStr "Broken lamp"; "type" := JStr "lamp" ]};
    PatchRecord 12 alice 1 {[ "title" := JStr "Deep pothole" ]};
    PostVote 13 bob 1 support;
    PostVote 14 alice 2 urgent;
    PatchStatus 15 admin2 1 to_investigation;
    PatchRecord 16 alice 1 {[ "title" := JStr "Too late" ]};
    PostVote 17 bob 1 urgent;
    DeleteVote alice 2;
    PatchStatus 18 admin3 1 to_resolved;
    DeleteRecord bob 3;
    DeleteRecord alice 1 ].

Example busy_day_outcome :
  let s := run_requests busy_day (db_with "draft") in
  (fun kr => (kr.1, status kr.2, title kr.2, vote_count kr.2, assigned_admin_id kr.2))
    <$> select (fun _ => true) (records s)
  = [ (1, "resolved", JStr "Deep pothole", 1, Some 2);
      (2, "under-investigation", JStr "Bribe at checkpoint", 0, None) ]
  /\ length (status_history s) = 2%nat
  /\ size (votes s) = 1%nat /\ size (media s) = 1%nat.
Proof. vm_compute. repeat split. Qed.

Lemma statuses_stay_known_witness :
  statuses_known (run_requests busy_day (db_with "draft")).
Proof.
  apply (statuses_stay_known busy_day (db_with "draft")).
  apply map_Forall_singleton. unfold statuses. simpl.
  rewrite !elem_of_cons. tauto.
Defined.

Lemma ownership_stays_coherent_witness :
  ownership_coherent (run_requests busy_day (db_with "draft")).
Proof.
  apply (ownership_stays_coherent busy_day (db_with "draft")).
  apply map_Forall_singleton. simpl. repeat split; discriminate.
Defined.

Lemma drafts_stay_unassigned_witness :
  drafts_unassigned (run_requests busy_day (db_with "draft")).
Proof.
  apply (drafts_stay_unassigned busy_day (db_with "draft")).
  apply map_Forall_singleton. reflexivity.
Defined.

Lemma published_record_is_permanent_witness :
  exists r', records (run_requests busy_day (db_with "resolved")) !! 1 = Some r'
             /\ status r' <> "draft" /\ same_content (pothole "resolved") r'.
Proof.
  apply (published_record_is_permanent busy_day (db_with "resolved") 1 (pothole "resolved")).
  - reflexivity.
  - discriminate.
Defined.

Lemma rows_keep_their_records_witness :
  rows_reference_records (run_requests busy_day after_support).
Proof.
  apply (rows_keep_their_records busy_day after_support).
  split; apply (bool_decide_unpack _); vm_compute; exact I.
Defined.

Lemma vote_count_matches_rows_everywhere_witness :
  vote_count_consistent (run_requests busy_day after_support).
Proof.
  apply (vote_count_matches_rows_everywhere busy_day after_support).
  - split; apply (bool_decide_unpack _); vm_compute; exact I.
  - apply (bool_decide_unpack _). vm_compute. exact I.
Defined.

Lemma one_vote_per_pair_everywhere_witness :
  one_vote_per_pair (run_requests busy_day after_support).
Proof.
  apply (one_vote_per_pair_everywhere busy_day after_support).
  apply (bool_decide_unpack _). vm_compute. exact I.
Defined.

Lemma status_history_is_append_only_witness :
  history_of_published (run_requests busy_day claimed_db)
  /\ status_history claimed_db `prefix_of` status_history (run_requests busy_day claimed_db).
Proof.
  apply (status_history_is_append_only busy_day claimed_db).
  apply Forall_singleton. exists claimed. split; [vm_compute; reflexivity|discriminate].
Defined.

Lemma history_stays_coherent_witness :
  history_coherent (run_requests busy_day claimed_db).
Proof.
  apply (history_stays_coherent busy_day claimed_db).
  - apply Forall_singleton. exists claimed. split; [vm_compute; reflexivity|discriminate].
  - unfold history_coherent.
    replace (records claimed_db) with ({[1 := claimed]} : gmap Z RecordRow)
      by (vm_compute; reflexivity).
    apply map_Forall_singleton. split; [vm_compute; tauto|].
    intros h Hh. vm_compute in Hh. injection Hh as <-. reflexivity.
Defined.

Example history_after_busy_day :
  (fun h => (history_record_id h, old_status h, new_status h, changed_by h))
    <$> status_history (run_requests busy_day claimed_db)
  = [ (1, Some "draft", "under-investigation", Some 2);
      (1, Some "under-investigation", "under-investigation", Some 2);
      (1, Some "under-investigation", "resolved", Some 3) ].
Proof. vm_compute. reflexivity. Qed.

(** ** Single requests *)


Lemma vote_record_reports_count_witness :
  exists message vt,
    resp_body (vote_record 11 after_support bob 1 urgent).2
    = VoteResult message
        (count (votes_on 1) (votes (vote_record 11 after_support bob 1 urgent).1))
        (Some vt)
    /\ vote_count <$> records (vote_record 11 after_support bob 1 urgent).1 !! 1
       = Some (count (votes_on 1) (votes (vote_record 11 after_support bob 1 urgent).1))
    /\ count (votes_on 1) (votes (vote_record 11 after_support bob 1 urgent).1)
       = count (votes_on 1) (votes after_support)
         + match first (vote_of 1 (ident_id bob)) (votes after_support) with
           | Some _ => 0
           | None => 1
           end.
Proof.
  apply (vote_record_reports_count 11 after_support bob 1 urgent).
  - apply surjective_pairing.
  - vm_compute. reflexivity.
Defined.

Example two_votes_counted :
  count (votes_on 1) (votes (vote_record 11 after_support bob 1 urgent).1) = 2.
Proof. vm_compute. reflexivity. Qed.

Lemma remove_vote_reports_count_witness :
  resp_body (remove_vote after_support alice 1).2
  = VoteResult "Vote removed successfully"
      (count (votes_on 1) (votes (remove_vote after_support alice 1).1)) None
  /\ count (votes_on 1) (votes (remove_vote after_support alice 1).1)
     = count (votes_on 1) (votes after_support) - 1
  /\ size (votes (remove_vote after_support alice 1).1) = pred (size (votes after_support))
  /\ (is_Some (records after_support !! 1) ->
      vote_count <$> records (remove_vote after_support alice 1).1 !! 1
      = Some (count (votes_on 1) (votes (remove_vote after_support alice 1).1))).
Proof.
  apply (remove_vote_reports_count after_support alice 1).
  - apply surjective_pairing.
  - vm_compute. reflexivity.
Defined.

Lemma remove_vote_twice_witness :
  remove_vote (remove_vote after_support alice 1).1 alice 1
  = ((remove_vote after_support alice 1).1,
     make_response (Error "No vote found to remove") 404).
Proof.
  apply (remove_vote_twice after_support alice 1 _ (remove_vote after_support alice 1).2).
  - apply (bool_decide_unpack _). vm_compute. exact I.
  - apply surjective_pairing.
  - vm_compute. reflexivity.
Defined.

(** The draft of user 5 with a vote of user 6 on it. *)
Definition voted_draft : db := (vote_record 10 (db_with "draft") bob 1 support).1.

Lemma delete_record_cascades_witness :
  let s' := (delete_record voted_draft alice 1).1 in
  (exists r, records voted_draft !! 1 = Some r /\ status r = "draft"
             /\ ident_role alice = "user"
             /\ normal_user_id r = Some (ident_id alice))
  /\ records s' !! 1 = None
  /\ (forall id', id' <> 1 -> records s' !! id' = records voted_draft !! id')
  /\ (forall k m, media s' !! k = Some m <->
                  media voted_draft !! k = Some m /\ media_record_id m <> 1)
  /\ (forall k v, votes s' !! k = Some v <->
                  votes voted_draft !! k = Some v /\ vote_record_id v <> 1)
  /\ (forall h, h ∈ status_history s' <->
                h ∈ status_history voted_draft /\ history_record_id h <> 1)
  /\ normal_users s' = normal_users voted_draft.
Proof.
  apply (delete_record_cascades voted_draft alice 1 _ (delete_record voted_draft alice 1).2).
  - apply surjective_pairing.
  - vm_compute. reflexivity.
Defined.

Example delete_record_takes_votes :
  size (votes voted_draft) = 1%nat
  /\ size (votes (delete_record voted_draft alice 1).1) = 0%nat.
Proof. split; vm_compute; reflexivity. Qed.

Definition deeper : gmap string json := {[ "title" := JStr "Deep pothole" ]}.

Lemma update_record_guarded_witness :
  let s := db_with "draft" in
  let s' := (update_record 12 s alice 1 deeper).1 in
  code (update_record 12 s alice 1 deeper).2 = 200
  /\ (exists r r',
        records s !! 1 = Some r /\ records s' !! 1 = Some r'
        /\ ident_role alice = "user" /\ normal_user_id r = Some (ident_id alice)
        /\ status r = "draft" /\ status r' = "draft"
        /\ normal_user_id r' = normal_user_id r /\ is_anonymous r' = is_anonymous r
        /\ vote_count r' = vote_count r
        /\ assigned_admin_id r' = assigned_admin_id r
        /\ resolution_notes r' = resolution_notes r
        /\ created_at r' = created_at r /\ updated_at r' = 12)
  /\ (forall id', id' <> 1 -> records s' !! id' = records s !! id')
  /\ votes s' = votes s /\ status_history s' = status_history s.
Proof.
  apply (update_record_guarded 12 (db_with "draft") alice 1 deeper _
           (update_record 12 (db_with "draft") alice 1 deeper).2).
  - apply surjective_pairing.
  - intros H. apply (f_equal (fun s => title <$> records s !! 1)) in H.
    vm_compute in H. discriminate.
Defined.

Lemma update_status_guarded_witness :
  let s := db_with "draft" in
  let s' := (update_status 9 s admin2 1 to_investigation).1 in
  code (update_status 9 s admin2 1 to_investigation).2 = 200
  /\ ident_role admin2 = "admin"
  /\ (exists r r' h,
        records s !! 1 = Some r /\ records s' !! 1 = Some r'
        /\ same_content r r' /\ vote_count r' = vote_count r
        /\ dict_get to_investigation "status" = JStr (status r')
        /\ status r' ∈ status_targets
        /\ status_history s' = status_history s ++ [h]
        /\ history_record_id h = 1 /\ changed_by h = Some (ident_id admin2)
        /\ old_status h = Some (status r) /\ new_status h = status r')
  /\ (forall id', id' <> 1 -> records s' !! id' = records s !! id')
  /\ votes s' = votes s /\ media s' = media s.
Proof.
  apply (update_status_guarded 9 (db_with "draft") admin2 1 to_investigation _
           (update_status 9 (db_with "draft") admin2 1 to_investigation).2).
  - apply surjective_pairing.
  - intros H. apply (f_equal (fun s => length (status_history s))) in H.
    vm_compute in H. discriminate.
Defined.

Definition broken_lamp : gmap string json :=
  {[ "title" := JStr "Broken lamp"; "type" := JStr "lamp" ]}.


Lemma create_record_commits_first_witness :
  let s := db_with "draft" in
  let s' := (create_record 11 s bob broken_lamp).1 in
  ident_role bob = "user"
  /\ (exists id r,
        records s !! id = None /\ records s' = <[id := r]> (records s)
        /\ status r = "draft" /\ normal_user_id r = Some (ident_id bob)
        /\ title r = dict_get broken_lamp "title")
  /\ code (create_record 11 s bob broken_lamp).2
     = match normal_users s !! ident_id bob with
       | Some _ => 201
       | None => 500
       end.
Proof.
  apply (create_record_commits_first 11 (db_with "draft") bob broken_lamp _
           (create_record 11 (db_with "draft") bob broken_lamp).2).
  - apply surjective_pairing.
  - intros H. apply (f_equal (fun s => size (records s))) in H.
    vm_compute in H. discriminate.
Defined.

(** User 6 has no row in the users table: the record is stored and the
    answer is 500; for user 5, whose row exists, the answer is 201. *)
Example create_record_without_user_row :
  code (create_record 11 (db_with "draft") bob broken_lamp).2 = 500
  /\ size (records (create_record 11 (db_with "draft") bob broken_lamp).1) = 2%nat
  /\ code (create_record 11 (db_with "draft") alice broken_lamp).2 = 201.
Proof. repeat split; vm_compute; reflexivity. Qed.

(** ** Validators *)

Example validate_media_url_examples :
  validate_media_url (JStr "https://host/p.PNG") "image" = true
  /\ validate_media_url (JStr "https://host/p.png?size=2") "image" = false
  /\ validate_media_url (JStr "ftp://host/p.png") "image" = false
  /\ validate_media_url (JStr "https://host/clip.mp4") "image" = false
  /\ validate_media_url (JStr "https://host/clip.mp4") "video" = true
  /\ validate_media_url (JInt 7) "image" = false.
Proof. repeat split; vm_compute; reflexivity. Qed.

Example validate_coordinates_examples :
  validate_coordinates (JInt 91) (JInt 0) = Done false
  /\ validate_coordinates (JInt (-90)) (JInt 180) = Done true
  /\ validate_coordinates (JInt 999) JNull = Done true
  /\ validate_coordinates (JFloat FNaN) (JInt 0) = Done false.
Proof. repeat split; vm_compute; reflexivity. Qed.
